(** * headless-pm: process registry, MCP supervisor and agent runner

    A shallow embedding of the coordination code of headless-pm:

    - [src/utils/atomic_file_ops.py]   (module [AtomicFileOps])
    - [src/utils/process_registry.py]  (module [ProcessRegistry])
    - [src/mcp/server.py]              (module [McpServer])
    - [agents/client/advanced_runner/components/task_persistence.py]
                                       (module [TaskPersistence])
    - [agents/client/advanced_runner/components/claude_executor.py]
                                       (module [ClaudeExecutor])
    - [agents/client/advanced_runner/advanced_agent_runner.py]
                                       (module [Runner])

    Conventions of the embedding.

    - A Python [dict] is an insertion-ordered association list; the
      registry's [processes] dict is keyed by [str(pid)] and consulted with
      [int(pid_str)], so the model identifies a key with the integer it
      denotes.
    - [time.time()] and [psutil]'s [create_time()] are seconds since the
      epoch; they are rationals here, the rounding of floats is not modelled.
    - A JSON object with optional keys is a record of [option] fields,
      [None] standing for an absent key (or a JSON [null], which [dict.get]
      does not tell apart).
    - What the host answers ([os.getpid], [psutil.pid_exists], the clock) is
      an explicit environment record. *)

From Stdlib Require Import List String ZArith QArith Qabs Bool Lia Lqa.
Import ListNotations.
Local Open Scope string_scope.
Local Open Scope list_scope.
Local Open Scope Z_scope.

(** ** Python values *)

Module Py.

(** Exceptions the modelled code raises and catches. *)
Inductive exn : Type :=
| ValueError (msg : string)
| NameError (name : string)
| TypeError (msg : string).

(** A computation that returns or raises. *)
Inductive result (A : Type) : Type :=
| Return (a : A)
| Raise (e : exn).
Arguments Return {A} a.
Arguments Raise {A} e.

(** Truthiness of an integer read with [dict.get]: [None] and [0] are
    falsy. *)
Definition truthy_int (v : option Z) : bool :=
  match v with
  | Some n => negb (n =? 0)
  | None => false
  end.

(** Truthiness of a container read with [dict.get]. *)
Definition truthy_list {A : Type} (v : option (list A)) : bool :=
  match v with
  | Some (_ :: _) => true
  | _ => false
  end.

(** [a == b] on values read with [dict.get] that are strings or [None]. *)
Definition opt_string_eqb (a b : option string) : bool :=
  match a, b with
  | Some x, Some y => String.eqb x y
  | None, None => true
  | _, _ => false
  end.

(** [a == b] on values that are integers or [None]. *)
Definition opt_Z_eqb (a b : option Z) : bool :=
  match a, b with
  | Some x, Some y => x =? y
  | None, None => true
  | _, _ => false
  end.

(** [a > b] on timestamps. *)
Definition Qgtb (a b : Q) : bool := negb (Qle_bool a b).

(** *** Insertion-ordered dictionaries with integer keys *)

Definition dict (V : Type) : Type := list (Z * V).

(** [d.get(k)] *)
Fixpoint get {V : Type} (k : Z) (d : dict V) : option V :=
  match d with
  | [] => None
  | (k', v) :: r => if k =? k' then Some v else get k r
  end.

(** [k in d] *)
Definition mem {V : Type} (k : Z) (d : dict V) : bool :=
  match get k d with Some _ => true | None => false end.

(** [d[k] = v]: an existing key keeps its position, a new key goes last. *)
Fixpoint set {V : Type} (k : Z) (v : V) (d : dict V) : dict V :=
  match d with
  | [] => [(k, v)]
  | (k', v') :: r => if k =? k' then (k, v) :: r else (k', v') :: set k v r
  end.

(** [d.pop(k)] / [del d[k]] for a key known to be present. *)
Definition pop {V : Type} (k : Z) (d : dict V) : dict V :=
  filter (fun kv => negb (k =? fst kv)) d.

Definition keys {V : Type} (d : dict V) : list Z := map fst d.
Definition values {V : Type} (d : dict V) : list V := map snd d.

(** A well-formed dictionary holds each key once. *)
Definition wf {V : Type} (d : dict V) : Prop := NoDup (keys d).

End Py.

Import Py.

(** ** The host environment *)

Record Env : Type := {
  HAS_PSUTIL : bool;          (* [import psutil] succeeded *)
  pid_exists : Z -> bool;     (* [psutil.pid_exists] *)
  getpid : Z;                 (* [os.getpid()] *)
  time_now : Q;               (* [time.time()] *)
  getcwd : string             (* [os.getcwd()] *)
}.

(** ** The registry document *)

(** An entry of [processes]. *)
Record ProcInfo : Type := {
  p_type : option string;
  p_client_id : option string;
  p_started : option Q;
  p_repository : option string;
  p_last_heartbeat : option Q
}.

(** An entry of the legacy [clients] dict. *)
Record ClientInfo : Type := {
  c_pid : option Z;
  c_timestamp : option Q
}.

(** An entry of [rate_limits]. *)
Record RateData : Type := {
  attempts : list Q
}.

Record Doc : Type := {
  processes : option (dict ProcInfo);
  primary_api : option Z;
  api_pid : option Z;                              (* legacy *)
  clients : option (list (string * ClientInfo));   (* legacy *)
  rate_limits : option (dict RateData);
  rate_limit_blocked_port : option Z
}.

(** The empty JSON object [{}]. *)
Definition empty_doc : Doc :=
  {| processes := None; primary_api := None; api_pid := None;
     clients := None; rate_limits := None; rate_limit_blocked_port := None |}.

(** [data.get('processes', {})] *)
Definition procs (data : Doc) : dict ProcInfo :=
  match processes data with Some d => d | None => [] end.

(** [data.get('clients', {})] *)
Definition legacy_clients (data : Doc) : list (string * ClientInfo) :=
  match clients data with Some c => c | None => [] end.

Definition has_type (ty : string) (info : ProcInfo) : bool :=
  opt_string_eqb (p_type info) (Some ty).

(** Functional updates of single keys of the document. *)
Definition set_processes (v : option (dict ProcInfo)) (d : Doc) : Doc :=
  {| processes := v; primary_api := primary_api d; api_pid := api_pid d;
     clients := clients d; rate_limits := rate_limits d;
     rate_limit_blocked_port := rate_limit_blocked_port d |}.

Definition set_primary_api (v : option Z) (d : Doc) : Doc :=
  {| processes := processes d; primary_api := v; api_pid := api_pid d;
     clients := clients d; rate_limits := rate_limits d;
     rate_limit_blocked_port := rate_limit_blocked_port d |}.

Definition set_api_pid (v : option Z) (d : Doc) : Doc :=
  {| processes := processes d; primary_api := primary_api d; api_pid := v;
     clients := clients d; rate_limits := rate_limits d;
     rate_limit_blocked_port := rate_limit_blocked_port d |}.

Definition set_rate_limits (v : option (dict RateData)) (d : Doc) : Doc :=
  {| processes := processes d; primary_api := primary_api d; api_pid := api_pid d;
     clients := clients d; rate_limits := v;
     rate_limit_blocked_port := rate_limit_blocked_port d |}.

Definition set_blocked_port (v : option Z) (d : Doc) : Doc :=
  {| processes := processes d; primary_api := primary_api d; api_pid := api_pid d;
     clients := clients d; rate_limits := rate_limits d;
     rate_limit_blocked_port := v |}.

(** The first PID of [processes] registered as an API server, as found by
    [for pid_str, info in processes.items(): if ...: new_primary = ...; break]. *)
Definition first_api_server (processes : dict ProcInfo) : option Z :=
  match find (fun kv => has_type "api_server" (snd kv)) processes with
  | Some kv => Some (fst kv)
  | None => None
  end.

(** [sum(1 for info in processes.values() if info.get('type') == ty)] *)
Definition count_type (ty : string) (processes : dict ProcInfo) : nat :=
  List.length (filter (has_type ty) (values processes)).

(** ** src/utils/atomic_file_ops.py *)

Module AtomicFileOps.

(** The JSON file on disk: [None] when there is no file.  [_read_json_safe]
    answers the default for a missing file and for one that does not
    parse alike. *)
Definition file : Type := option Doc.

(** [_read_json_safe(file_path, default)] *)
Definition _read_json_safe (f : file) (default : Doc) : Doc :=
  match f with
  | Some d => d
  | None => default
  end.

(** [atomic_json_update(file_path, update_func, default_data)]: the value
    returned (or the exception that escapes) and the file afterwards.  An
    exception of [update_func] leaves the file as it was. *)
Definition atomic_json_update (f : file) (update_func : Doc -> result Doc)
           (default_data : Doc) : result Doc * file :=
  let current_data := _read_json_safe f default_data in
  match update_func current_data with
  | Return updated_data => (Return updated_data, Some updated_data)
  | Raise e => (Raise e, f)
  end.

(** [with_coordination_lock(lock_name, operation, ...)]: the operation's
    result, or [None] when it raises. *)
Definition with_coordination_lock {A S : Type}
           (operation : S -> result A * S) (s : S) : option A * S :=
  match operation s with
  | (Return a, s') => (Some a, s')
  | (Raise _, s') => (None, s')
  end.

End AtomicFileOps.

Import AtomicFileOps.

(** ** src/utils/process_registry.py *)

Module ProcessRegistry.

(** [check_pid_conflict(data, pid, process_type)] *)
Definition check_pid_conflict (data : Doc) (pid : Z) (process_type : string)
  : bool :=
  if existsb (fun kv => (fst kv =? pid) && negb (has_type process_type (snd kv)))
             (procs data)
  then true
  else if opt_Z_eqb (api_pid data) (Some pid)
          && negb (String.eqb process_type "api_server")
  then true
  else if existsb (fun ci => opt_Z_eqb (c_pid (snd ci)) (Some pid)
                             && negb (String.eqb process_type "mcp_client"))
                  (legacy_clients data)
  then true
  else false.

Definition api_entry (env : Env) : ProcInfo :=
  {| p_type := Some "api_server";
     p_client_id := None;
     p_started := Some (time_now env);
     p_repository := Some (getcwd env);
     p_last_heartbeat := Some (time_now env) |}.

Definition migrated_client_entry (env : Env) (client_id : string)
           (client_info : ClientInfo) : ProcInfo :=
  {| p_type := Some "mcp_client";
     p_client_id := Some client_id;
     p_started := Some (match c_timestamp client_info with
                        | Some t => t
                        | None => time_now env
                        end);
     p_repository := None;
     p_last_heartbeat := Some (time_now env) |}.

(** One turn of the loop over [data.get('clients', {}).items()]. *)
Definition migrate_client (env : Env) (acc : dict ProcInfo)
           (item : string * ClientInfo) : dict ProcInfo :=
  let '(client_id, client_info) := item in
  match c_pid client_info with
  | Some pid =>
      if truthy_int (Some pid) && HAS_PSUTIL env && pid_exists env pid
         && negb (mem pid acc)
      then set pid (migrated_client_entry env client_id client_info) acc
      else acc
  | None => acc
  end.

(** The guard of the early return: already fully migrated. *)
Definition fully_migrated (data : Doc) : bool :=
  match processes data with
  | Some _ => negb (truthy_int (api_pid data)) && negb (truthy_list (clients data))
  | None => false
  end.

(** [migrate_legacy_structure(data)] *)
Definition migrate_legacy_structure (env : Env) (data : Doc) : Doc :=
  if fully_migrated data then data
  else
    let procs0 := procs data in
    let live_api :=
      match api_pid data with
      | Some p => if truthy_int (Some p) && HAS_PSUTIL env && pid_exists env p
                  then Some p else None
      | None => None
      end in
    let procs1 :=
      match live_api with
      | Some p => set p (api_entry env) procs0
      | None => procs0
      end in
    {| processes := Some (fold_left (migrate_client env) (legacy_clients data) procs1);
       primary_api := live_api;
       api_pid := None;
       clients := None;
       rate_limits := rate_limits data;
       rate_limit_blocked_port := rate_limit_blocked_port data |}.

(** What the two guarded imports at the top of the module bound. *)
Record Imports : Type := {
  AtomicFileOperations : bool;
  with_coordination_lock_bound : bool
}.

(** The inner [register_api_pid(data)] of [register_api_server]. *)
Definition register_api_pid (env : Env) (data : Doc) : result Doc :=
  let current_pid := getpid env in
  if check_pid_conflict data current_pid "api_server"
  then Raise (ValueError "PID already registered as different type")
  else
    let data := match processes data with
                | None => set_processes (Some []) data
                | Some _ => data
                end in
    let data := migrate_legacy_structure env data in
    let data := set_processes (Some (set current_pid (api_entry env) (procs data))) data in
    Return (set_primary_api (Some current_pid) data).

(** [register_api_server()] *)
Definition register_api_server (m : Imports) (env : Env) (f : file)
  : bool * file :=
  if negb (AtomicFileOperations m) then (false, f)
  else
    match atomic_json_update f (register_api_pid env) empty_doc with
    | (Return _, f') => (true, f')
    | (Raise _, f') => (false, f')
    end.

(** The inner [unregister_api_pid(data)] of [unregister_api_server]. *)
Definition unregister_api_pid (env : Env) (data : Doc) : Doc :=
  let current_pid := getpid env in
  let data := migrate_legacy_structure env data in
  let processes0 := procs data in
  match get current_pid processes0 with
  | Some info =>
      if has_type "api_server" info then
        let processes1 := pop current_pid processes0 in
        let data :=
          if opt_Z_eqb (primary_api data) (Some current_pid)
          then set_primary_api (first_api_server processes1) data
          else data in
        set_processes (Some processes1) data
      else set_processes (Some processes0) data
  | None => set_processes (Some processes0) data
  end.

(** [unregister_api_server()].  With the lock helper bound, the first thing
    evaluated inside the [try] is the lock name [f"api_shutdown_{port}"];
    [port] is bound neither in the function nor at module level, so the
    lookup raises [NameError], which the [except Exception] turns into
    [False]. *)
Definition unregister_api_server (m : Imports) (env : Env) (f : file)
  : bool * file :=
  if negb (AtomicFileOperations m) then (false, f)
  else
    let attempt : result bool * file :=
      if with_coordination_lock_bound m then
        (Raise (NameError "port"), f)
      else
        match atomic_json_update f (fun d => Return (unregister_api_pid env d))
                                 empty_doc with
        | (Return _, f') => (Return true, f')
        | (Raise e, f') => (Raise e, f')
        end in
    match attempt with
    | (Return b, f') => (b, f')
    | (Raise _, f') => (false, f')
    end.

(** [info['last_heartbeat'] = time.time()] *)
Definition touch (env : Env) (info : ProcInfo) : ProcInfo :=
  {| p_type := p_type info; p_client_id := p_client_id info;
     p_started := p_started info; p_repository := p_repository info;
     p_last_heartbeat := Some (time_now env) |}.

(** The inner [cleanup_stale_processes(data)] of [cleanup_process_registry]. *)
Definition cleanup_stale_processes (env : Env) (data : Doc) : Doc :=
  let data := migrate_legacy_structure env data in
  let active_processes :=
    map (fun kv => (fst kv, touch env (snd kv)))
        (filter (fun kv => HAS_PSUTIL env && pid_exists env (fst kv)) (procs data)) in
  let data :=
    match primary_api data with
    | Some p =>
        if truthy_int (Some p) && (negb (HAS_PSUTIL env) || negb (pid_exists env p))
        then set_primary_api (first_api_server active_processes) data
        else data
    | None => data
    end in
  set_processes (Some active_processes) data.

(** [cleanup_process_registry()] *)
Definition cleanup_process_registry (m : Imports) (env : Env) (f : file)
  : bool * file :=
  if negb (AtomicFileOperations m) then (false, f)
  else
    match atomic_json_update f (fun d => Return (cleanup_stale_processes env d))
                             empty_doc with
    | (Return result, f') =>
        if negb (truthy_int (api_pid result)) && negb (truthy_list (clients result))
        then (true, None)        (* [registry_file.unlink()] *)
        else (true, f')
    | (Raise _, f') => (false, f')
    end.

End ProcessRegistry.

Import ProcessRegistry.

(** ** src/mcp/server.py *)

Module McpServer.

(** The fields of [HeadlessPMMCPServer] the coordination code reads. *)
Record Server : Type := {
  _client_id : string;
  _we_started_api : bool;
  _api_server_pid : option Z;
  _api_server_start_time : option Q;
  _cleanup_in_progress : bool
}.

(** The inner [clean_stale_pids(data)] of [ensure_api_available]. *)
Definition clean_stale_pids (env : Env) (data : Doc) : Doc :=
  let data := migrate_legacy_structure env data in
  let data :=
    match api_pid data with
    | Some p =>
        if truthy_int (Some p) && HAS_PSUTIL env && negb (pid_exists env p)
        then set_api_pid None data
        else data
    | None => data
    end in
  match processes data with
  | Some ps =>
      if HAS_PSUTIL env
      then set_processes (Some (filter (fun kv => pid_exists env (fst kv)) ps)) data
      else data
  | None => data
  end.

Definition client_entry (self : Server) (env : Env) : ProcInfo :=
  {| p_type := Some "mcp_client";
     p_client_id := Some (_client_id self);
     p_started := Some (time_now env);
     p_repository := Some (getcwd env);
     p_last_heartbeat := Some (time_now env) |}.

(** The inner [add_client(data)] of [_register_mcp_client]. *)
Definition add_client (self : Server) (env : Env) (data : Doc) : Doc :=
  let data := migrate_legacy_structure env data in
  let current_pid := getpid env in
  if check_pid_conflict data current_pid "mcp_client"
  then data
  else set_processes (Some (set current_pid (client_entry self env) (procs data))) data.

(** The default document [{'clients': {}}]. *)
Definition clients_default : Doc :=
  {| processes := None; primary_api := None; api_pid := None;
     clients := Some []; rate_limits := None; rate_limit_blocked_port := None |}.

(** [_register_mcp_client()]: [should_start] and the file afterwards. *)
Definition _register_mcp_client (self : Server) (env : Env) (f : file)
  : bool * file :=
  match atomic_json_update f (fun d => Return (add_client self env d))
                           clients_default with
  | (Return result, f') =>
      let mcp_client_count := count_type "mcp_client" (procs result) in
      let api_server_count := count_type "api_server" (procs result) in
      (((mcp_client_count =? 1)%nat && (api_server_count =? 0)%nat)
       || (api_server_count =? 0)%nat, f')
  | (Raise _, f') => (true, f')
  end.

(** The inner [remove_client(data)] of [_unregister_mcp_client]. *)
Definition remove_client (self : Server) (env : Env) (data : Doc) : Doc :=
  let data := migrate_legacy_structure env data in
  let current_pid := getpid env in
  let processes0 := procs data in
  match get current_pid processes0 with
  | Some info =>
      if opt_string_eqb (p_client_id info) (Some (_client_id self))
      then set_processes (Some (pop current_pid processes0)) data
      else set_processes (Some processes0) data
  | None => set_processes (Some processes0) data
  end.

(** The inner [coordinated_unregister()] of [_unregister_mcp_client]. *)
Definition coordinated_unregister (self : Server) (env : Env) (f : file)
  : result bool * file :=
  match atomic_json_update f (fun d => Return (remove_client self env d))
                           clients_default with
  | (Return result, f') =>
      let mcp_client_count := count_type "mcp_client" (procs result) in
      let should_cleanup := (mcp_client_count =? 0)%nat && _we_started_api self in
      if should_cleanup
      then (Return should_cleanup, None)     (* [coordination_file.unlink()] *)
      else (Return should_cleanup, f')
  | (Raise e, f') => (Raise e, f')
  end.

(** [_unregister_mcp_client()]: [should_cleanup] and the file afterwards. *)
Definition _unregister_mcp_client (self : Server) (env : Env) (f : file)
  : bool * file :=
  match with_coordination_lock (coordinated_unregister self env) f with
  | (Some result, f') => (result, f')
  | (None, f') => (false, f')
  end.

(** The inner [update_and_check_rate_limit(data)] of
    [_check_startup_rate_limit].  [rate_data] is the stored dict itself when
    the port has one, so assigning the pruned list to it is seen in [data]
    also on the blocked path. *)
Definition update_and_check_rate_limit (now : Q) (port : Z) (data : Doc) : Doc :=
  let limits := match rate_limits data with Some l => l | None => [] end in
  let stored := get port limits in
  let five_minutes_ago := (now - 300)%Q in
  let pruned :=
    filter (fun t => Qgtb t five_minutes_ago)
           (match stored with Some rd => attempts rd | None => [] end) in
  let limits :=
    match stored with
    | Some _ => set port {| attempts := pruned |} limits
    | None => limits
    end in
  let data := set_rate_limits (Some limits) data in
  let five_seconds_ago := (now - 5)%Q in
  let recent_attempts := filter (fun t => Qgtb t five_seconds_ago) pruned in
  if (3 <=? List.length recent_attempts)%nat
  then set_blocked_port (Some port) data
  else
    let data :=
      set_rate_limits (Some (set port {| attempts := pruned ++ [now] |} limits)) data in
    set_blocked_port None data.

(** [_check_startup_rate_limit(port)] at clock reading [now]. *)
Definition _check_startup_rate_limit (now : Q) (port : Z) (f : file)
  : bool * file :=
  match atomic_json_update f (fun d => Return (update_and_check_rate_limit now port d))
                           empty_doc with
  | (Return final_data, f') =>
      if opt_Z_eqb (rate_limit_blocked_port final_data) (Some port)
      then (false, f')
      else (true, f')
  | (Raise _, f') => (true, f')
  end.

(** What [psutil.Process(pid)] shows of a live process. *)
Record Process : Type := {
  create_time : Q;
  cmdline : list string;
  stops_on_terminate : bool     (* [wait(timeout=5)] returns in time *)
}.

(** [psutil.Process(pid)]; [None] is [NoSuchProcess].  Without psutil the
    stand-in class answers the current time and an empty command line. *)
Definition psutil_Process (env : Env) (table : Z -> option Process) (pid : Z)
  : option Process :=
  if HAS_PSUTIL env then table pid
  else Some {| create_time := time_now env; cmdline := [];
               stops_on_terminate := true |}.

Inductive signal : Type :=
| Terminate (pid : Z)
| Kill (pid : Z).

(** [sub in s] on strings. *)
Definition contains (sub s : string) : bool :=
  match String.index 0 sub s with
  | Some _ => true
  | None => false
  end.

(** Truthiness of a float or [None]. *)
Definition truthy_float (v : option Q) : bool :=
  match v with
  | Some t => negb (Qeq_bool t 0)
  | None => false
  end.

(** The [try] block of [_perform_cleanup] once an owned server PID is known:
    the signals sent to [cleanup_pid]. *)
Definition terminate_server (self : Server) (env : Env)
           (table : Z -> option Process) (cleanup_pid : Z) : list signal :=
  match psutil_Process env table cleanup_pid with
  | None => []
  | Some server_process =>
      let current_create_time := create_time server_process in
      let mismatch :=
        match _api_server_start_time self with
        | Some t0 => truthy_float (Some t0)
                     && Qgtb (Qabs (current_create_time - t0)) 1
        | None => false
        end in
      if mismatch then []
      else if negb (existsb (fun arg => contains "uvicorn" arg || contains "src.main" arg)
                            (cmdline server_process))
      then []
      else if stops_on_terminate server_process
      then [Terminate cleanup_pid]
      else [Terminate cleanup_pid; Kill cleanup_pid]
  end.

Definition reset (self : Server) : Server :=
  {| _client_id := _client_id self;
     _we_started_api := false;
     _api_server_pid := None;
     _api_server_start_time := None;
     _cleanup_in_progress := false |}.

(** [_perform_cleanup()]: the server object, the registry file and the
    signals sent. *)
Definition _perform_cleanup (self : Server) (env : Env)
           (table : Z -> option Process) (f : file)
  : Server * file * list signal :=
  if _cleanup_in_progress self then (self, f, [])
  else
    let '(should_cleanup_api, f') := _unregister_mcp_client self env f in
    let signals :=
      if negb should_cleanup_api then []
      else if negb (_we_started_api self) then []
      else match _api_server_pid self with
           | Some cleanup_pid =>
               if truthy_int (Some cleanup_pid)
               then terminate_server self env table cleanup_pid
               else []
           | None => []
           end in
    (reset self, f', signals).

End McpServer.

Import McpServer.

(** ** agents/client/advanced_runner/components/task_persistence.py *)

Module TaskPersistence.

(** A task as the PM service hands it out; only the keys the runner reads. *)
Record Task : Type := {
  t_id : Z;
  t_title : option string;
  t_status : string;
  t_complexity : option string;
  t_skill_level : option string
}.

(** The JSON object stored in the lease file. *)
Record LockData : Type := {
  task_id : Z;
  task_title : string;
  agent_id : option string;
  locked_at : Q;
  worktree_path : option string;
  branch_name : option string;
  task_data : option Task;
  updated_at : option Q
}.

(** What a reader finds at a path. *)
Inductive file_state : Type :=
| Absent                  (* no such file *)
| Empty                   (* a file of length zero *)
| Garbage                 (* bytes that do not parse as JSON *)
| Holds (d : LockData).   (* the JSON text of [d] *)

(** The file system, by path. *)
Definition fs : Type := string -> file_state.

Definition upd (s : fs) (p : string) (c : file_state) : fs :=
  fun q => if String.eqb q p then c else s q.

(** The file-system calls the lease store and the atomic writer issue. *)
Inductive fs_op : Type :=
| OpenW (p : string)                  (* [open(p, 'w')]: create or truncate *)
| JsonDump (p : string) (d : LockData) (* [json.dump(d, f)] and close *)
| Rename (src dst : string)           (* [os.rename(src, dst)] *)
| Unlink (p : string).                (* [Path.unlink()] *)

Definition apply_op (s : fs) (op : fs_op) : fs :=
  match op with
  | OpenW p => upd s p Empty
  | JsonDump p d => upd s p (Holds d)
  | Rename src dst => upd (upd s dst (s src)) src Absent
  | Unlink p => upd s p Absent
  end.

Definition run_ops (s : fs) (ops : list fs_op) : fs := fold_left apply_op ops s.

(** The file systems a concurrent reader can meet while [ops] run: the one
    after each call, in order. *)
Fixpoint states_during (s : fs) (ops : list fs_op) : list fs :=
  match ops with
  | [] => []
  | op :: rest => apply_op s op :: states_during (apply_op s op) rest
  end.

(** [TaskPersistence(agent_id)] *)
Record Store : Type := {
  self_agent_id : string
}.

(** [self.lock_file] ([~] stands for [Path.home()]). *)
Definition lock_file (self : Store) : string :=
  ("~/.headless-pm/locks/agent-" ++ self_agent_id self ++ ".lock")%string.

Definition or_empty (v : option string) : string :=
  match v with Some s => s | None => "" end.

(** The calls of [lock_task(task, worktree_path, branch_name)]. *)
Definition lock_task_ops (self : Store) (now : Q) (task : Task)
           (worktree_path branch_name : option string) : list fs_op :=
  let lock_data :=
    {| task_id := t_id task;
       task_title := or_empty (t_title task);
       agent_id := Some (self_agent_id self);
       locked_at := now;
       worktree_path := worktree_path;
       branch_name := branch_name;
       task_data := Some task;
       updated_at := None |} in
  [OpenW (lock_file self); JsonDump (lock_file self) lock_data].

(** [lock_task(task, worktree_path, branch_name)] *)
Definition lock_task (self : Store) (now : Q) (task : Task)
           (worktree_path branch_name : option string) (s : fs) : fs :=
  run_ops s (lock_task_ops self now task worktree_path branch_name).

(** [self.lock_file.exists()] *)
Definition exists_ (self : Store) (s : fs) : bool :=
  match s (lock_file self) with
  | Absent => false
  | _ => true
  end.

(** The calls of [release_lock()]. *)
Definition release_lock_ops (self : Store) (s : fs) : list fs_op :=
  if exists_ self s then [Unlink (lock_file self)] else [].

(** [release_lock()] *)
Definition release_lock (self : Store) (s : fs) : fs :=
  run_ops s (release_lock_ops self s).

(** [get_locked_task()]: the lock data and the calls issued (a lease file
    that does not parse is removed). *)
Definition get_locked_task_ops (self : Store) (s : fs)
  : option LockData * list fs_op :=
  match s (lock_file self) with
  | Absent => (None, [])
  | Empty | Garbage => (None, release_lock_ops self s)
  | Holds lock_data =>
      if negb (opt_string_eqb (agent_id lock_data) (Some (self_agent_id self)))
      then (None, [])
      else (Some lock_data, [])
  end.

Definition get_locked_task (self : Store) (s : fs) : option LockData * fs :=
  let '(r, ops) := get_locked_task_ops self s in (r, run_ops s ops).

(** The calls of [update_lock(worktree_path=..., branch_name=...)]. *)
Definition update_lock_ops (self : Store) (now : Q)
           (new_worktree_path new_branch_name : string) (s : fs) : list fs_op :=
  let '(r, ops) := get_locked_task_ops self s in
  match r with
  | Some lock_data =>
      let lock_data :=
        {| task_id := task_id lock_data;
           task_title := task_title lock_data;
           agent_id := agent_id lock_data;
           locked_at := locked_at lock_data;
           worktree_path := Some new_worktree_path;
           branch_name := Some new_branch_name;
           task_data := task_data lock_data;
           updated_at := Some now |} in
      ops ++ [OpenW (lock_file self); JsonDump (lock_file self) lock_data]
  | None => ops
  end.

(** [update_lock(worktree_path=..., branch_name=...)] *)
Definition update_lock (self : Store) (now : Q)
           (new_worktree_path new_branch_name : string) (s : fs) : fs :=
  run_ops s (update_lock_ops self now new_worktree_path new_branch_name s).

(** [update_lock(worktree_path=p, branch_name=...)] for a [p] that [json]
    cannot encode (a [pathlib.Path]): with a lease of this agent in place,
    [json.dump] raises [TypeError] when it reaches [p], after
    [open(..., 'w')] has truncated the file and the fields before [p] have
    been written; without such a lease nothing is written and nothing is
    raised. *)
Definition update_lock_unencodable (self : Store) (s : fs) : result unit * fs :=
  let '(r, s') := get_locked_task self s in
  match r with
  | Some _ =>
      (Raise (TypeError "Object of type PosixPath is not JSON serializable"),
       upd (run_ops s' [OpenW (lock_file self)]) (lock_file self) Garbage)
  | None => (Return tt, s')
  end.

(** [is_locked()] *)
Definition is_locked (self : Store) (s : fs) : bool := exists_ self s.

End TaskPersistence.

Import TaskPersistence.

(** ** agents/client/advanced_runner/components/claude_executor.py *)

Module ClaudeExecutor.

(** How [subprocess.run(cmd, ..., timeout=timeout)] ends. *)
Inductive run_outcome : Type :=
| Exited (returncode : Z) (stderr stdout : string)
| TimeoutExpired
| FileNotFoundError      (* the binary is not there *)
| OtherException.

(** The message half of the result of [execute_task]. *)
Inductive message : Type :=
| WorktreeMissing
| InstructionsUnreadable
| CompletedSuccessfully
| ExitedWithCode (returncode : Z) (error_msg : string)
| TimedOut (timeout : Z)
| FailedToExecute.

(** [result.stderr or result.stdout or "Unknown error"] *)
Definition error_text (stderr stdout : string) : string :=
  if negb (String.eqb stderr "") then stderr
  else if negb (String.eqb stdout "") then stdout
  else "Unknown error".

(** [execute_task(task, worktree_path, instructions_path, timeout)] *)
Definition execute_task (worktree_exists instructions_readable : bool)
           (run : run_outcome) (timeout : Z) : bool * message :=
  if negb worktree_exists then (false, WorktreeMissing)
  else if negb instructions_readable then (false, InstructionsUnreadable)
  else
    match run with
    | Exited returncode stderr stdout =>
        if returncode =? 0 then (true, CompletedSuccessfully)
        else (false, ExitedWithCode returncode (error_text stderr stdout))
    | TimeoutExpired => (false, TimedOut timeout)
    | FileNotFoundError | OtherException => (false, FailedToExecute)
    end.

End ClaudeExecutor.

Import ClaudeExecutor.

(** ** agents/client/advanced_runner/advanced_agent_runner.py *)

Module Runner.

(** [AdvancedAgentRunner(role, agent_id, config)] *)
Record AdvancedAgentRunner : Type := {
  role : string;
  runner_agent_id : string;
  claude_timeout : Z
}.

Definition persistence (self : AdvancedAgentRunner) : Store :=
  {| self_agent_id := runner_agent_id self |}.

(** The operator's answer to [prompt_operator]. *)
Inductive choice : Type :=
| RetryChecks
| SkipChecks
| ReleaseTask.

(** What the collaborators of one runner answer: hooks, operator, PM
    service, worktree manager, configuration and the LLM subprocess. *)
Record World : Type := {
  run_pre_task : nat -> bool;              (* the n-th run of the pre-task hook *)
  prompt_operator : nat -> choice;         (* the answer at the n-th prompt *)
  client_lock_task : Z -> bool;            (* [client.lock_task] did not raise *)
  create_worktree : Z -> option (string * string);
                                           (* worktree path and branch, or raised *)
  get_instructions_path : string -> option string;
  path_exists : string -> bool;
  instructions_readable : string -> bool;
  subprocess_run : run_outcome;
  client_update_task_status : bool;        (* did not raise *)
  worktree_cleanup : bool;                 (* did not raise *)
  client_get_task : Z -> option Task;      (* [None]: raised *)
  client_get_next_task : option Task;
  clock : Q
}.

(** What the runner shows and asks for, in order. *)
Inductive event : Type :=
| UiError (what : string)
| UiExecutionError (m : message)
| UiSuccess (what : string)
| UiWarning (what : string)
| UiInfo (what : string)
| OperatorPrompt (answer : choice)
| PmGetTask (task : Z)
| PmLockTask (task : Z)
| PmUpdateStatus (task : Z) (new_status : string)
| PostTaskHook (task : Z) (success : bool).

(** [_get_completion_status()] *)
Definition _get_completion_status (self : AdvancedAgentRunner) : string :=
  let r := role self in
  if String.eqb r "backend_dev" then "dev_done"
  else if String.eqb r "frontend_dev" then "dev_done"
  else if String.eqb r "fullstack_dev" then "dev_done"
  else "completed".

(** [Path.cwd()] *)
Definition cwd : string := ".".

(** [_execute_task(task)] from the worktree step on: everything after the
    pre-task gate and the PM lock. *)
Definition run_locked_task (self : AdvancedAgentRunner) (w : World)
           (task : Task) (s : fs) : fs * list event :=
  let major := opt_string_eqb (t_complexity task) (Some "major") in
  let '(worktree_path, s, log) :=
    if major then
      match create_worktree w (t_id task) with
      | Some (path, branch) =>
          (* [create_for_task] answers a [pathlib.Path], which the runner
             hands to [update_lock] as it is *)
          match update_lock_unencodable (persistence self) s with
          | (Return _, s) => (path, s, [UiSuccess "Worktree created"])
          | (Raise _, s) => (path, s, [UiError "Failed to create worktree"])
          end
      | None => (cwd, s, [UiError "Failed to create worktree"])
      end
    else (cwd, s, []) in
  match get_instructions_path w (role self) with
  | None =>
      (release_lock (persistence self) s,
       log ++ [UiError "No instructions found for role"])
  | Some instructions_path =>
      let '(success, execution_msg) :=
        execute_task (path_exists w worktree_path)
                     (instructions_readable w instructions_path)
                     (subprocess_run w) (claude_timeout self) in
      let log :=
        if success then
          let new_status := _get_completion_status self in
          log ++ [UiSuccess "Task completed successfully";
                  PmUpdateStatus (t_id task) new_status;
                  if client_update_task_status w
                  then UiSuccess "Task status updated"
                  else UiError "Failed to update task status"]
        else log ++ [UiExecutionError execution_msg] in
      let log := log ++ [PostTaskHook (t_id task) success] in
      let log :=
        if major && negb (String.eqb worktree_path cwd) then
          log ++ [if worktree_cleanup w
                  then UiInfo "Worktree cleaned up"
                  else UiWarning "Failed to cleanup worktree"]
        else log in
      (release_lock (persistence self) s, log ++ [UiSuccess "Task completed"])
  end.

(** [_execute_task(task)].  [n] counts the pre-task rounds already played;
    [fuel] bounds the recursive retries, [None] meaning the bound was hit. *)
Fixpoint _execute_task (fuel : nat) (self : AdvancedAgentRunner) (w : World)
         (n : nat) (task : Task) (s : fs) : option (fs * list event) :=
  match fuel with
  | O => None
  | S fuel' =>
      let proceed := run_pre_task w n in
      let continue_ (log : list event) :=
        if client_lock_task w (t_id task) then
          let '(s', log') := run_locked_task self w task s in
          Some (s', log ++ [PmLockTask (t_id task); UiSuccess "Task locked in PM system"]
                        ++ log')
        else
          Some (release_lock (persistence self) s,
                log ++ [PmLockTask (t_id task); UiError "Failed to lock task"]) in
      if proceed then continue_ []
      else
        let choice := prompt_operator w n in
        let log := [UiError "Pre-task hook failed"; OperatorPrompt choice] in
        match choice with
        | ReleaseTask => Some (release_lock (persistence self) s, log)
        | RetryChecks =>
            match _execute_task fuel' self w (S n) task s with
            | Some (s', log') => Some (s', log ++ log')
            | None => None
            end
        | SkipChecks => continue_ log
        end
  end.

(** [_recover_locked_task()]: the task to resume, the file system and what
    was asked of the PM service. *)
Definition _recover_locked_task (self : AdvancedAgentRunner) (w : World) (s : fs)
  : option Task * fs * list event :=
  let '(lock_data, s) := get_locked_task (persistence self) s in
  match lock_data with
  | None => (None, s, [])
  | Some lock_data =>
      match task_data lock_data with
      | Some task =>
          match client_get_task w (t_id task) with
          | Some current_task =>
              if String.eqb (t_status current_task) "completed"
                 || String.eqb (t_status current_task) "cancelled"
              then (None, release_lock (persistence self) s,
                    [PmGetTask (t_id task); UiInfo "Task already completed, releasing lock"])
              else (Some current_task, s, [PmGetTask (t_id task)])
          | None => (None, release_lock (persistence self) s, [PmGetTask (t_id task)])
          end
      | None => (None, s, [])
      end
  end.

(** What one turn of the main loop of [run_continuous] does after the
    recovery step. *)
Inductive plan : Type :=
| Resume (task : Task)     (* execute the task recovered from the lease *)
| Fresh (task : Task)      (* lease and execute a newly polled task *)
| Idle.                    (* nothing to do: sleep and poll again *)

(** The body of the [while self.running] loop up to the call of
    [_execute_task]. *)
Definition session_plan (self : AdvancedAgentRunner) (w : World) (s : fs)
  : plan * fs * list event :=
  let '(task, s, log) := _recover_locked_task self w s in
  match task with
  | Some task => (Resume task, s, log)
  | None =>
      match client_get_next_task w with
      | Some task =>
          (Fresh task, lock_task (persistence self) (clock w) task None None s, log)
      | None => (Idle, s, log)
      end
  end.

End Runner.

Import Runner.

(** * Vocabulary of the properties *)

(** A document still carries legacy data: a truthy [api_pid] or a non-empty
    [clients] dict. *)
Definition legacy_shape (data : Doc) : bool :=
  truthy_int (api_pid data) || truthy_list (clients data).

(** [pid] is the [pid] of some entry of the legacy [clients] dict. *)
Definition legacy_client_pid (data : Doc) (pid : Z) : Prop :=
  exists client_id client_info,
    In (client_id, client_info) (legacy_clients data) /\ c_pid client_info = Some pid.

(** At most one entry per PID. *)
Definition one_entry_per_pid (data : Doc) : Prop := wf (procs data).

(** No PID is registered under two different types. *)
Definition one_type_per_pid (data : Doc) : Prop :=
  forall pid info1 info2,
    In (pid, info1) (procs data) -> In (pid, info2) (procs data) ->
    p_type info1 = p_type info2.

(** [primary_api], if non-null, names an entry of [processes] whose type is
    [api_server]. *)
Definition primary_api_valid (data : Doc) : Prop :=
  match primary_api data with
  | Some p => exists info, get p (procs data) = Some info
                           /\ has_type "api_server" info = true
  | None => True
  end.

(** [pid] is registered under a type other than [ty]. *)
Definition registered_as_other (data : Doc) (pid : Z) (ty : string) : Prop :=
  exists info, get pid (procs data) = Some info /\ has_type ty info = false.

(** The properties above, for the registry file. *)
Definition file_holds (P : Doc -> Prop) (f : file) : Prop :=
  match f with
  | Some data => P data
  | None => True
  end.

(** Both guarded imports of [process_registry.py] succeeded. *)
Definition imported : Imports :=
  {| AtomicFileOperations := true; with_coordination_lock_bound := true |}.

(** The operations that rewrite the registry file. *)
Inductive registry_op : Type :=
| RegisterApiServer (m : Imports)
| UnregisterApiServer (m : Imports)
| CleanupProcessRegistry (m : Imports)
| CleanStalePids
| RegisterMcpClient (self : Server)
| UnregisterMcpClient (self : Server)
| CheckStartupRateLimit (port : Z).

(** One registry update, made by a process that sees the host as [env]. *)
Definition registry_step (f : file) (step : Env * registry_op) : file :=
  let '(env, op) := step in
  match op with
  | RegisterApiServer m => snd (register_api_server m env f)
  | UnregisterApiServer m => snd (unregister_api_server m env f)
  | CleanupProcessRegistry m => snd (cleanup_process_registry m env f)
  | CleanStalePids =>
      match f with
      | Some _ => snd (atomic_json_update f (fun d => Return (clean_stale_pids env d))
                                          empty_doc)
      | None => f      (* only run [if coordination_file.exists()] *)
      end
  | RegisterMcpClient self => snd (_register_mcp_client self env f)
  | UnregisterMcpClient self => snd (_unregister_mcp_client self env f)
  | CheckStartupRateLimit port => snd (_check_startup_rate_limit (time_now env) port f)
  end.

(** A sequence of registry updates, one lock holder after the other. *)
Definition registry_run (f : file) (steps : list (Env * registry_op)) : file :=
  fold_left registry_step steps f.

(** ** Sample hosts and documents *)

(** A host with psutil on which exactly the PIDs of [alive] exist, seen by
    process [pid] at time 1000. *)
Definition host (pid : Z) (alive : list Z) : Env :=
  {| HAS_PSUTIL := true;
     pid_exists := fun p => existsb (Z.eqb p) alive;
     getpid := pid;
     time_now := 1000;
     getcwd := "/repo" |}.

Definition api_info : ProcInfo :=
  {| p_type := Some "api_server"; p_client_id := None; p_started := Some 900%Q;
     p_repository := Some "/repo"; p_last_heartbeat := Some 900%Q |}.

Definition mcp_info (client_id : string) : ProcInfo :=
  {| p_type := Some "mcp_client"; p_client_id := Some client_id;
     p_started := Some 900%Q; p_repository := Some "/repo";
     p_last_heartbeat := Some 900%Q |}.

Definition flat_doc (ps : dict ProcInfo) (primary : option Z) : Doc :=
  {| processes := Some ps; primary_api := primary; api_pid := None;
     clients := None; rate_limits := None; rate_limit_blocked_port := None |}.

(** PID 100 is an API server; a legacy client entry for PID 200 is left. *)
Definition doc_api_and_legacy_client : Doc :=
  {| processes := Some [(100, api_info)]; primary_api := Some 100; api_pid := None;
     clients := Some [("mcp_200_1", {| c_pid := Some 200; c_timestamp := Some 900%Q |})];
     rate_limits := None; rate_limit_blocked_port := None |}.

(** A purely legacy document: API server 100, clients 200 and 300. *)
Definition doc_legacy : Doc :=
  {| processes := None; primary_api := None; api_pid := Some 100;
     clients := Some [("mcp_200_1", {| c_pid := Some 200; c_timestamp := Some 900%Q |});
                      ("mcp_300_1", {| c_pid := Some 300; c_timestamp := None |})];
     rate_limits := None; rate_limit_blocked_port := None |}.

Definition mcp_server (client_id : string) (started_api : bool) : Server :=
  {| _client_id := client_id; _we_started_api := started_api;
     _api_server_pid := None; _api_server_start_time := None;
     _cleanup_in_progress := false |}.

(** The last MCP client (PID 200) of an API server (PID 100) it started and
    recorded with creation time [t0]. *)
Definition owning_client (t0 : Q) : Server :=
  {| _client_id := "mcp_200_1"; _we_started_api := true;
     _api_server_pid := Some 100; _api_server_start_time := Some t0;
     _cleanup_in_progress := false |}.

(** A process table in which PID 100 is a uvicorn server created at [t]. *)
Definition table_with_server (t : Q) (pid : Z) : option Process :=
  if pid =? 100
  then Some {| create_time := t;
               cmdline := ["python"; "-m"; "uvicorn"; "src.main:app"];
               stops_on_terminate := true |}
  else None.

Definition doc_api_and_client : Doc :=
  flat_doc [(100, api_info); (200, mcp_info "mcp_200_1")] (Some 100).

(** ** Lease files *)

(** What a reader of path [p] can find while the calls run. *)
Definition observed (p : string) (states : list fs) : list file_state :=
  map (fun s => s p) states.

(** A write is atomic for its readers when all they can find is the content
    before it or the content after it. *)
Definition atomic_write (before after : file_state) (seen : list file_state) : Prop :=
  Forall (fun c => c = before \/ c = after) seen.

(** The calls include a rename of another file onto [p]. *)
Definition renames_onto (p : string) (ops : list fs_op) : Prop :=
  exists tmp, tmp <> p /\ In (Rename tmp p) ops.

Definition no_files : fs := fun _ => Absent.

Definition task_42 (st : string) : Task :=
  {| t_id := 42; t_title := Some "Add endpoint"; t_status := st;
     t_complexity := Some "minor"; t_skill_level := Some "senior" |}.

Definition agent_a1 : Store := {| self_agent_id := "a1" |}.

(** The lease of agent [a1] on task 42, taken at time 900. *)
Definition lease_42 : LockData :=
  {| task_id := 42; task_title := "Add endpoint"; agent_id := Some "a1";
     locked_at := 900; worktree_path := None; branch_name := None;
     task_data := Some (task_42 "under_work"); updated_at := None |}.

Definition fs_with_lease : fs := upd no_files (lock_file agent_a1) (Holds lease_42).

(** ** The runner *)

(** The LLM subprocess step failed: the binary was not found (or could not
    be started), it exited with a non-zero code, or it timed out. *)
Definition llm_step_failed (run : run_outcome) : bool :=
  match run with
  | Exited returncode _ _ => negb (returncode =? 0)
  | TimeoutExpired | FileNotFoundError | OtherException => true
  end.

(** The status progression of a task, as the spec lists it. *)
Definition status_progression : list string :=
  ["created"; "under_work"; "dev_done"; "testing"; "qa_done";
   "documentation_done"; "committed"].

(** The statuses that come after [x] in a progression. *)
Fixpoint downstream_of (x : string) (progression : list string) : list string :=
  match progression with
  | [] => []
  | y :: rest => if String.eqb x y then rest else downstream_of x rest
  end.

(** The spec's notion of a status that is terminal for a role: [completed],
    [cancelled], and any status downstream of what the role produces. *)
Definition spec_terminal_for_role (self : AdvancedAgentRunner) (st : string) : bool :=
  String.eqb st "completed" || String.eqb st "cancelled"
  || existsb (String.eqb st)
             (downstream_of (_get_completion_status self) status_progression).

Definition runner_a1 (r : string) : AdvancedAgentRunner :=
  {| role := r; runner_agent_id := "a1"; claude_timeout := 600 |}.

(** A world in which hooks pass, the PM service answers, instructions are
    found, task 42 has status [st] at the PM service and the LLM subprocess
    ends as [run]. *)
Definition quiet_world (st : string) (run : run_outcome) : World :=
  {| run_pre_task := fun _ => true;
     prompt_operator := fun _ => ReleaseTask;
     client_lock_task := fun _ => true;
     create_worktree := fun _ => None;
     get_instructions_path := fun _ => Some "team_roles/role.md";
     path_exists := fun _ => true;
     instructions_readable := fun _ => true;
     subprocess_run := run;
     client_update_task_status := true;
     worktree_cleanup := true;
     client_get_task := fun i => if i =? 42 then Some (task_42 st) else None;
     client_get_next_task := None;
     clock := 1000 |}.

(** ** The startup rate limiter *)

(** The attempts recorded for [port] in a document and in the file. *)
Definition attempts_of (port : Z) (data : Doc) : list Q :=
  match rate_limits data with
  | Some limits => match get port limits with
                   | Some rate_data => attempts rate_data
                   | None => []
                   end
  | None => []
  end.

Definition file_attempts (port : Z) (f : file) : list Q :=
  match f with
  | Some data => attempts_of port data
  | None => []
  end.

(** The attempts within the 5 seconds that precede [now]. *)
Definition recent (now : Q) (l : list Q) : list Q :=
  filter (fun t => Qgtb t (now - 5)) l.

(** The attempts younger than 5 minutes at [now]. *)
Definition pruned (now : Q) (l : list Q) : list Q :=
  filter (fun t => Qgtb t (now - 300)) l.

(** A sequence of startup checks on [port], at the clock readings [nows]:
    the answers and the file afterwards. *)
Fixpoint run_checks (port : Z) (nows : list Q) (f : file) : list bool * file :=
  match nows with
  | [] => ([], f)
  | now :: rest =>
      let '(ok, f') := _check_startup_rate_limit now port f in
      let '(oks, f'') := run_checks port rest f' in
      (ok :: oks, f'')
  end.



(** The clock does not run backwards between checks. *)
Fixpoint nondecreasing_from (prev : Q) (l : list Q) : Prop :=
  match l with
  | [] => True
  | t :: rest => (prev <= t)%Q /\ nondecreasing_from t rest
  end.


(** * Further functions of the same files and of their callees *)

(** Truthiness of a string read from the environment or passed as an
    optional argument: [None] and the empty string are falsy. *)
Definition truthy_string (v : option string) : bool :=
  match v with
  | Some s => negb (String.eqb s "")
  | None => false
  end.

(** [os.environ.get(name, default)] *)
Definition env_get (v : option string) (default : string) : string :=
  match v with
  | Some s => s
  | None => default
  end.

(** ** The path of the registry file *)

(** [temp_dir / name], for a directory written without a trailing slash. *)
Definition path_join (dir name : string) : string := (dir ++ "/" ++ name)%string.

(** [get_process_registry_path(service_port)] of [process_registry.py];
    [tempdir] is [tempfile.gettempdir()] and [SERVICE_PORT] the environment
    variable of that name. *)
Definition get_process_registry_path (tempdir : string) (SERVICE_PORT : option string)
           (service_port : option string) : string :=
  let port := if truthy_string service_port
              then env_get service_port ""
              else env_get SERVICE_PORT "6969" in
  path_join tempdir ("headless_pm_mcp_clients_" ++ port ++ ".json")%string.

(** [_get_mcp_coordination_file()] of [server.py]. *)
Definition _get_mcp_coordination_file (tempdir : string) (SERVICE_PORT : option string)
  : string :=
  let port := env_get SERVICE_PORT "6969" in
  path_join tempdir ("headless_pm_mcp_clients_" ++ port ++ ".json")%string.

(** ** src/main.py: the port allocator *)

(** The loop of [find_available_port]: the first port of
    [range(port, port + n)] on which [bind] succeeds. *)
Fixpoint first_free_port (free : Z -> bool) (port : Z) (n : nat) : option Z :=
  match n with
  | O => None
  | S n' => if free port then Some port else first_free_port free (port + 1) n'
  end.

(** [find_available_port(start_port, max_attempts)]; [free] is what
    [bind(('localhost', port))] answers. *)
Definition find_available_port (free : Z -> bool) (start_port : Z) (max_attempts : nat)
  : Z :=
  match first_free_port free start_port max_attempts with
  | Some port => port
  | None => start_port
  end.

(** [is_port_available(port)] *)
Definition is_port_available (free : Z -> bool) (port : Z) : bool := free port.

(** The port [get_port] aims at when the environment gives none:
    [default_port + abs(hash(instance_id)) % 1000], or [default_port] without
    an instance id.  [instance_hash] is [hash(instance_id)]. *)
Definition target_port (default_port : Z) (instance_hash : option Z) : Z :=
  match instance_hash with
  | Some h => default_port + Z.abs h mod 1000
  | None => default_port
  end.

(** [get_port(default_port, instance_id, env_override)].  [env_value] is
    [None] when no override variable is named or set, [Some None] when its
    value is not an integer, [Some (Some p)] when it reads as [p]. *)
Definition get_port (free : Z -> bool) (default_port : Z) (instance_hash : option Z)
           (env_value : option (option Z)) : Z :=
  match env_value with
  | Some (Some env_port) =>
      if is_port_available free env_port then env_port
      else find_available_port free env_port 50
  | _ =>
      let target := target_port default_port instance_hash in
      if is_port_available free target then target
      else find_available_port free target 50
  end.

(** The port the search of [get_port] starts from. *)
Definition requested_port (default_port : Z) (instance_hash : option Z)
           (env_value : option (option Z)) : Z :=
  match env_value with
  | Some (Some env_port) => env_port
  | _ => target_port default_port instance_hash
  end.

(** ** agents/client/advanced_runner/components/model_mapper.py *)

Definition SONNET_MODEL : string := "claude-3-5-sonnet-20241022".
Definition OPUS_MODEL : string := "claude-3-opus-20240229".

(** [str.lower()] on one character of an ASCII string. *)
Definition lower_char (c : Ascii.ascii) : Ascii.ascii :=
  let n := Ascii.nat_of_ascii c in
  if (65 <=? n)%nat && (n <=? 90)%nat then Ascii.ascii_of_nat (n + 32) else c.

(** [str.lower()] on the ASCII strings skill levels are written in. *)
Fixpoint lower (s : string) : string :=
  match s with
  | EmptyString => EmptyString
  | String c rest => String (lower_char c) (lower rest)
  end.

(** [ModelMapper.get_model(skill_level)]: [MAPPING.get(skill_level.lower(),
    SONNET_MODEL)]. *)
Definition get_model (skill_level : string) : string :=
  let key := lower skill_level in
  if String.eqb key "junior" then SONNET_MODEL
  else if String.eqb key "senior" then SONNET_MODEL
  else if String.eqb key "principal" then OPUS_MODEL
  else SONNET_MODEL.

(** [ModelMapper.get_model_name(model_id)] *)
Definition get_model_name (model_id : string) : string :=
  if String.eqb model_id OPUS_MODEL then "Claude 3 Opus"
  else if String.eqb model_id SONNET_MODEL then "Claude 3.5 Sonnet"
  else "Unknown Model".

(** [ModelMapper.is_opus_task(skill_level)] *)
Definition is_opus_task (skill_level : string) : bool :=
  String.eqb (get_model skill_level) OPUS_MODEL.

(** The model [ClaudeExecutor.execute_task] puts on the command line:
    [get_model(task.get('skill_level', 'senior'))]. *)
Definition task_model (task : Task) : string :=
  get_model (env_get (t_skill_level task) "senior").

(** [ClaudeExecutor.build_command_args(task, additional_flags)] *)
Definition build_command_args (claude_command : string) (task : Task)
           (additional_flags : option (list string)) : list string :=
  [claude_command; "--model"; task_model task; "--dangerously-skip-permissions"]
  ++ match additional_flags with
     | Some (flag :: flags) => flag :: flags
     | _ => []
     end.

(** ** agents/client/advanced_runner/components/hook_runner.py *)

(** How the [subprocess.run] of a hook script ends. *)
Inductive hook_outcome : Type :=
| HookExited (returncode : Z) (stderr stdout : string)
| HookTimedOut
| HookRaised.

(** The message half of the result of [_execute_hook]. *)
Inductive hook_message : Type :=
| NoHookFound
| HookOutput (stdout : string)
| HookError (text : string)
| HookFailedWithCode (returncode : Z)
| HookTimeout (timeout : Z)
| HookNotExecuted.

(** [_execute_hook(hook_name, data, timeout)]; [script_found] says whether
    one of [<name>.py], [<name>.sh], [<name>] exists in the hooks directory. *)
Definition _execute_hook (script_found : bool) (run : hook_outcome) (timeout : Z)
  : bool * hook_message :=
  if negb script_found then (true, NoHookFound)
  else
    match run with
    | HookExited returncode stderr stdout =>
        if returncode =? 0 then (true, HookOutput stdout)
        else if negb (String.eqb stderr "") then (false, HookError stderr)
        else if negb (String.eqb stdout "") then (false, HookError stdout)
        else (false, HookFailedWithCode returncode)
    | HookTimedOut => (false, HookTimeout timeout)
    | HookRaised => (false, HookNotExecuted)
    end.

(** The message half of the results of the three hook entry points. *)
Inductive hook_report : Type :=
| PreTaskChecksPassed
| PreTaskHookFailed (m : hook_message)
| SystemHealthy
| HealthCheckFailed (m : hook_message).

(** [run_pre_task(task)] *)
Definition run_pre_task_hook (script_found : bool) (run : hook_outcome)
  : bool * hook_report :=
  let '(success, message) := _execute_hook script_found run 30 in
  if negb success then (false, PreTaskHookFailed message)
  else (true, PreTaskChecksPassed).

(** [run_health_check()] *)
Definition run_health_check (script_found : bool) (run : hook_outcome)
  : bool * hook_report :=
  let '(success, message) := _execute_hook script_found run 30 in
  if negb success then (false, HealthCheckFailed message)
  else (true, SystemHealthy).

(** ** task_persistence.py: the age of a lease *)

(** [get_lock_age_seconds()] read at clock time [now]: the age and the file
    system afterwards ([get_locked_task] removes a lease that does not
    parse). *)
Definition get_lock_age_seconds (self : Store) (now : Q) (s : fs) : option Q * fs :=
  let '(lock_data, s') := get_locked_task self s in
  match lock_data with
  | Some d => (Some (now - locked_at d)%Q, s')
  | None => (None, s')
  end.

(** ** advanced_agent_runner.py: leaving the loop *)

(** [_cleanup()]: the file system afterwards ([delete_agent] is a request to
    the PM service whose failure is ignored). *)
Definition _cleanup (self : AdvancedAgentRunner) (s : fs) : fs :=
  if is_locked (persistence self) s
  then release_lock (persistence self) s
  else s.

(** ** src/mcp/server.py: connecting to the API or starting it *)

(** How the start attempt of [ensure_api_available] ends (command discovery,
    pre-validation, [Popen] and the wait for [/health]): it fails, or the API
    answers and [_find_api_server_pid] finds its PID and creation time or
    not. *)
Inductive start_outcome : Type :=
| StartFailed
| Started (pid_info : option (Z * Q)).

(** The fields set once an API answers: [_we_started_api], and the PID and
    creation time when [_find_api_server_pid] found them. *)
Definition note_api (self : Server) (started : bool) (pid_info : option (Z * Q))
  : Server :=
  {| _client_id := _client_id self;
     _we_started_api := started;
     _api_server_pid := match pid_info with
                        | Some (pid, _) => Some pid
                        | None => _api_server_pid self
                        end;
     _api_server_start_time := match pid_info with
                               | Some (_, created) => Some created
                               | None => _api_server_start_time self
                               end;
     _cleanup_in_progress := _cleanup_in_progress self |}.

(** The loop [for attempt in range(10)] that waits for a peer to start the
    API: [True] as soon as a probe answers 200.  [health n] is the answer of
    the [n]-th GET [/health] of this call (an exception counts as no). *)
Fixpoint wait_for_peer (health : nat -> bool) (probe : nat) (attempts : nat) : bool :=
  match attempts with
  | O => false
  | S attempts' =>
      if health probe then true else wait_for_peer health (S probe) attempts'
  end.

Record ensure_result : Type := {
  available : bool;          (* the value returned *)
  server_after : Server;
  file_after : file;         (* the registry file *)
  spawn_attempted : bool     (* the start attempt was reached *)
}.

(** [ensure_api_available()].  [find_pid] is the answer of
    [_find_api_server_pid], [NO_AUTOSTART] the environment variable
    [HEADLESS_PM_NO_AUTOSTART], [now] the clock at the rate-limit check and
    [port] the port of the base URL. *)
Definition ensure_api_available (self : Server) (env : Env) (health : nat -> bool)
           (find_pid : option (Z * Q)) (NO_AUTOSTART : option string)
           (now : Q) (port : Z) (start : start_outcome) (f : file) : ensure_result :=
  let f1 :=
    match f with
    | Some _ => snd (atomic_json_update f (fun d => Return (clean_stale_pids env d))
                                        empty_doc)
    | None => f
    end in
  let '(should_start_api, f2) := _register_mcp_client self env f1 in
  if health 0%nat then
    {| available := true; server_after := note_api self false find_pid;
       file_after := f2; spawn_attempted := false |}
  else if negb should_start_api && wait_for_peer health 1 10 then
    {| available := true; server_after := note_api self false find_pid;
       file_after := f2; spawn_attempted := false |}
  else if truthy_string NO_AUTOSTART then
    {| available := false; server_after := self;
       file_after := f2; spawn_attempted := false |}
  else
    let '(allowed, f3) := _check_startup_rate_limit now port f2 in
    if negb allowed then
      {| available := false; server_after := self;
         file_after := f3; spawn_attempted := false |}
    else
      match start with
      | StartFailed =>
          {| available := false; server_after := self;
             file_after := f3; spawn_attempted := true |}
      | Started pid_info =>
          {| available := true; server_after := note_api self true pid_info;
             file_after := f3; spawn_attempted := true |}
      end.

(** ** src/mcp/server.py: the launch command *)

(** The candidates tried when the supervisor itself runs in an MCP-spawned
    process. *)
Definition api_only_commands (current_python service_port : string)
  : list (list string) :=
  [ ["uvicorn"; "src.main:app"; "--host"; "0.0.0.0"; "--port"; service_port];
    [current_python; "-m"; "src.main"];
    ["python3"; "-m"; "src.main"];
    ["uv"; "run"; "api-only"];
    ["uv"; "run"; "--"; "python"; "-m"; "src.main"] ].

(** The candidates tried otherwise. *)
Definition general_commands (current_python service_port : string)
           (venv_commands : list (list string)) : list (list string) :=
  [ ["uvicorn"; "src.main:app"; "--host"; "0.0.0.0"; "--port"; service_port];
    [current_python; "-m"; "src.main"];
    ["python3"; "-m"; "src.main"];
    ["headless-pm"];
    ["headless-pm-mcp"];
    [current_python; "-m"; "headless_pm"];
    ["uv"; "run"; "headless-pm"];
    ["uv"; "run"; "start"] ]
  ++ venv_commands
  ++ [ ["python3"; "-m"; "headless_pm"];
       ["python"; "-m"; "headless_pm"] ].

(** The candidates added when a project directory was found. *)
Definition project_commands (current_python service_port : string)
  : list (list string) :=
  [ [current_python; "-m"; "src.main"];
    ["python3"; "-m"; "src.main"];
    ["uv"; "run"; "--"; "python"; "-m"; "src.main"];
    ["uvicorn"; "src.main:app"; "--host"; "0.0.0.0"; "--port"; service_port] ].

(** [_find_headless_pm_command()].  [HEADLESS_PM_COMMAND] is the override,
    already split on white space; [mcp_context] the answer of
    [_is_mcp_spawned_context()]; [project_found] whether
    [_find_project_directory()] found one; [venv_commands] the answer of
    [_get_venv_commands()]; [test cmd] the answer of
    [_test_command(cmd, _determine_working_directory(cmd))]. *)
Definition _find_headless_pm_command (HEADLESS_PM_COMMAND : option (list string))
           (mcp_context : bool) (current_python service_port : string)
           (project_found : bool) (venv_commands : list (list string))
           (test : list string -> bool) : option (list string) :=
  match HEADLESS_PM_COMMAND with
  | Some cmd => Some cmd
  | None =>
      let candidates :=
        (if mcp_context
         then api_only_commands current_python service_port
         else general_commands current_python service_port venv_commands)
        ++ (if project_found
            then project_commands current_python service_port
            else []) in
      find test candidates
  end.

(** A command that starts the API alone: it runs the module [src.main], the
    ASGI application [src.main:app] or the [api-only] script. *)
Definition starts_api_only (cmd : list string) : bool :=
  existsb (fun arg => String.eqb arg "src.main" || String.eqb arg "src.main:app"
                      || String.eqb arg "api-only") cmd.

(** No [/health] probe is ever answered. *)
Definition health_never (n : nat) : bool := false.


(** A world in which the PM service hands out task 42 at time 1000 and the
    LLM subprocess times out. *)
Definition polling_world : World :=
  {| run_pre_task := fun _ => true;
     prompt_operator := fun _ => ReleaseTask;
     client_lock_task := fun _ => true;
     create_worktree := fun _ => None;
     get_instructions_path := fun _ => None;
     path_exists := fun _ => true;
     instructions_readable := fun _ => true;
     subprocess_run := TimeoutExpired;
     client_update_task_status := true;
     worktree_cleanup := true;
     client_get_task := fun _ => None;
     client_get_next_task := Some (task_42 "created");
     clock := 1000 |}.


(** A world like [quiet_world] in which the pre-task hook fails in the first
    two rounds and passes in the third, and the operator answers "Retry
    checks" whenever asked. *)
Definition retrying_world (run : run_outcome) : World :=
  {| run_pre_task := fun n => (2 <=? n)%nat;
     prompt_operator := fun _ => RetryChecks;
     client_lock_task := fun _ => true;
     create_worktree := fun _ => None;
     get_instructions_path := fun _ => Some "team_roles/role.md";
     path_exists := fun _ => true;
     instructions_readable := fun _ => true;
     subprocess_run := run;
     client_update_task_status := true;
     worktree_cleanup := true;
     client_get_task := fun _ => None;
     client_get_next_task := None;
     clock := 1000 |}.

(** * Properties *)

(** ** Dictionaries *)

Section DictFacts.

Context {V : Type}.
Implicit Types (d : dict V) (k : Z) (v : V).

Lemma get_set d k k' v :
  get k (set k' v d) = if k =? k' then Some v else get k d.
Proof.
  induction d as [|[k0 v0] r IH]; simpl.
  - reflexivity.
  - destruct (k' =? k0) eqn:E0; simpl.
    + apply Z.eqb_eq in E0. subst k0.
      destruct (k =? k'); reflexivity.
    + rewrite IH. destruct (k =? k0) eqn:E1; [|reflexivity].
      apply Z.eqb_eq in E1. subst k0.
      destruct (k =? k') eqn:E2; [|reflexivity].
      apply Z.eqb_eq in E2. subst k'. rewrite Z.eqb_refl in E0. discriminate.
Qed.

Lemma get_set_same d k v : get k (set k v d) = Some v.
Proof. rewrite get_set, Z.eqb_refl. reflexivity. Qed.

Lemma get_set_other d k k' v : k <> k' -> get k (set k' v d) = get k d.
Proof.
  intros H. rewrite get_set. apply Z.eqb_neq in H. rewrite H. reflexivity.
Qed.

Lemma get_In d k v : get k d = Some v -> In (k, v) d.
Proof.
  induction d as [|[k0 v0] r IH]; simpl; [discriminate|].
  destruct (k =? k0) eqn:E.
  - apply Z.eqb_eq in E. intros [= ->]. subst. now left.
  - intros H. right. auto.
Qed.

Lemma get_None_keys d k : get k d = None <-> ~ In k (keys d).
Proof.
  induction d as [|[k0 v0] r IH]; simpl.
  - tauto.
  - destruct (k =? k0) eqn:E.
    + apply Z.eqb_eq in E. subst. split; [discriminate|]. intros H. exfalso. auto.
    + apply Z.eqb_neq in E. rewrite IH. split.
      * intros H [H1|H1]; [congruence|auto].
      * intros H H1. apply H. now right.
Qed.

Lemma In_get d k v : wf d -> In (k, v) d -> get k d = Some v.
Proof.
  unfold wf. induction d as [|[k0 v0] r IH]; simpl; [tauto|].
  intros Hnd [H|H].
  - injection H as -> ->. rewrite Z.eqb_refl. reflexivity.
  - inversion Hnd as [|? ? Hnot Hnd']; subst.
    destruct (k =? k0) eqn:E.
    + apply Z.eqb_eq in E. subst. exfalso. apply Hnot.
      change k0 with (fst (k0, v)). apply in_map. exact H.
    + apply IH; assumption.
Qed.

Lemma keys_set_In d k k' v : In k (keys (set k' v d)) <-> k = k' \/ In k (keys d).
Proof.
  induction d as [|[k0 v0] r IH]; simpl.
  - intuition.
  - destruct (k' =? k0) eqn:E; simpl.
    + apply Z.eqb_eq in E. subst. intuition.
    + rewrite IH. intuition.
Qed.

Lemma wf_set d k v : wf d -> wf (set k v d).
Proof.
  unfold wf. induction d as [|[k0 v0] r IH]; simpl; intros Hnd.
  - constructor; [simpl; tauto|constructor].
  - inversion Hnd as [|? ? Hnot Hnd']; subst.
    destruct (k =? k0) eqn:E; simpl.
    + apply Z.eqb_eq in E. subst. constructor; assumption.
    + apply Z.eqb_neq in E. constructor; [|auto].
      intros H. apply (keys_set_In r k0 k v) in H. destruct H; [congruence|auto].
Qed.

Lemma wf_filter d (f : Z * V -> bool) : wf d -> wf (filter f d).
Proof.
  unfold wf, keys. induction d as [|[k0 v0] r IH]; simpl; intros Hnd.
  - constructor.
  - inversion Hnd as [|? ? Hnot Hnd']; subst.
    destruct (f (k0, v0)); simpl; [|auto].
    constructor; [|auto].
    intros H. apply Hnot. apply in_map_iff in H. destruct H as [x [Hx Hin]].
    apply filter_In in Hin. apply in_map_iff. exists x. tauto.
Qed.

Lemma wf_pop d k : wf d -> wf (pop k d).
Proof. apply wf_filter. Qed.

Lemma get_filter_key d (f : Z -> bool) k :
  get k (filter (fun kv => f (fst kv)) d) = if f k then get k d else None.
Proof.
  induction d as [|[k0 v0] r IH]; simpl.
  - destruct (f k); reflexivity.
  - destruct (f k0) eqn:F0; simpl.
    + destruct (k =? k0) eqn:E.
      * apply Z.eqb_eq in E. subst. rewrite F0. reflexivity.
      * exact IH.
    + rewrite IH. destruct (k =? k0) eqn:E; [|reflexivity].
      apply Z.eqb_eq in E. subst. rewrite F0. reflexivity.
Qed.

Lemma get_pop d k k' : get k (pop k' d) = if k =? k' then None else get k d.
Proof.
  unfold pop. rewrite (get_filter_key d (fun x => negb (k' =? x)) k).
  rewrite (Z.eqb_sym k' k). destruct (k =? k'); reflexivity.
Qed.

Lemma mem_true d k : mem k d = true <-> exists v, get k d = Some v.
Proof.
  unfold mem. destruct (get k d) as [v|].
  - split; [intros _; now exists v|reflexivity].
  - split; [discriminate|]. intros [v H]. discriminate.
Qed.

End DictFacts.

(** ** Migration of the legacy layout *)

Lemma migrate_client_get env acc item pid :
  get pid (migrate_client env acc item) = get pid acc
  \/ (HAS_PSUTIL env = true /\ pid_exists env pid = true /\ c_pid (snd item) = Some pid).
Proof.
  destruct item as [cid ci]. unfold migrate_client. cbn [snd].
  destruct (c_pid ci) as [p|] eqn:Ep; [|now left].
  destruct (truthy_int (Some p) && HAS_PSUTIL env && pid_exists env p && negb (mem p acc))
    eqn:G; [|now left].
  apply andb_prop in G. destruct G as [G _].
  apply andb_prop in G. destruct G as [G Hal].
  apply andb_prop in G. destruct G as [_ Hps].
  rewrite get_set. destruct (pid =? p) eqn:E; [|now left].
  apply Z.eqb_eq in E. subst p. right. auto.
Qed.

Lemma migrate_clients_get env l : forall acc pid,
  get pid (fold_left (migrate_client env) l acc) = get pid acc
  \/ (HAS_PSUTIL env = true /\ pid_exists env pid = true /\
      exists cid ci, In (cid, ci) l /\ c_pid ci = Some pid).
Proof.
  induction l as [|item l IH]; intros acc pid; simpl.
  - now left.
  - destruct (IH (migrate_client env acc item) pid) as [H|(Hps & Hal & cid & ci & Hin & Hp)].
    + destruct (migrate_client_get env acc item pid) as [H'|(Hps & Hal & Hp)].
      * left. congruence.
      * right. repeat split; try assumption.
        destruct item as [cid ci]. exists cid, ci. simpl in Hp. auto.
    + right. repeat split; try assumption. exists cid, ci. auto.
Qed.

(** Every entry of the migrated [processes] either is the entry the document
    already had under that PID, or comes from a legacy entry whose PID psutil
    reports alive. *)
Lemma migrate_get env data pid :
  get pid (procs (migrate_legacy_structure env data)) = get pid (procs data)
  \/ (HAS_PSUTIL env = true /\ pid_exists env pid = true /\
      (api_pid data = Some pid \/ legacy_client_pid data pid)).
Proof.
  unfold migrate_legacy_structure.
  destruct (fully_migrated data); [now left|].
  unfold procs at 1. cbn [processes].
  destruct (migrate_clients_get env (legacy_clients data)
              (match match api_pid data with
                     | Some p => if truthy_int (Some p) && HAS_PSUTIL env && pid_exists env p
                                 then Some p else None
                     | None => None
                     end with
               | Some p => set p (api_entry env) (procs data)
               | None => procs data
               end) pid) as [H|(Hps & Hal & Hex)].
  - rewrite H. clear H.
    destruct (api_pid data) as [p|] eqn:Ea; [|now left].
    destruct (truthy_int (Some p) && HAS_PSUTIL env && pid_exists env p) eqn:G; [|now left].
    apply andb_prop in G. destruct G as [G Hal].
    apply andb_prop in G. destruct G as [_ Hps].
    rewrite get_set. destruct (pid =? p) eqn:E; [|now left].
    apply Z.eqb_eq in E. subst p. right. auto.
  - right. repeat split; try assumption. right. exact Hex.
Qed.

Lemma migrate_drops_legacy env data :
  legacy_shape data = true ->
  api_pid (migrate_legacy_structure env data) = None
  /\ clients (migrate_legacy_structure env data) = None.
Proof.
  unfold legacy_shape, migrate_legacy_structure, fully_migrated. intros H.
  destruct (processes data); [|split; reflexivity].
  destruct (truthy_int (api_pid data)); simpl in *.
  - split; reflexivity.
  - rewrite H. simpl. split; reflexivity.
Qed.

(** C10.  For a registry document in the legacy shape, migration removes the
    legacy [api_pid] and [clients] fields, and an entry of the flat
    [processes] mapping differs from the one the document already had under
    that PID only if psutil is available, reports the PID as existing, and
    the PID is the legacy [api_pid] or the PID of a legacy client.  So the
    entry under a dead PID, and every entry when psutil is unavailable, is
    what it was before: the legacy data of such PIDs is dropped, not
    translated. *)
Theorem migrate_legacy_carries_only_live_pids env data :
  legacy_shape data = true ->
  let migrated := migrate_legacy_structure env data in
  api_pid migrated = None
  /\ clients migrated = None
  /\ (forall pid,
        get pid (procs migrated) <> get pid (procs data) ->
        HAS_PSUTIL env = true /\ pid_exists env pid = true
        /\ (api_pid data = Some pid \/ legacy_client_pid data pid))
  /\ (forall pid,
        HAS_PSUTIL env = false \/ pid_exists env pid = false ->
        get pid (procs migrated) = get pid (procs data)).
Proof.
  intros H migrated.
  destruct (migrate_drops_legacy env data H) as [Ha Hc].
  repeat split; try assumption.
  - destruct (migrate_get env data pid) as [E|(Hps & Hal & _)]; [contradiction|assumption].
  - destruct (migrate_get env data pid) as [E|(Hps & Hal & _)]; [contradiction|assumption].
  - destruct (migrate_get env data pid) as [E|(_ & _ & Hsrc)]; [contradiction|assumption].
  - intros pid Hdead.
    destruct (migrate_get env data pid) as [E|(Hps & Hal & _)]; [exact E|].
    destruct Hdead; congruence.
Qed.

(** ** One entry per PID *)

Lemma wf_one_type data : one_entry_per_pid data -> one_type_per_pid data.
Proof.
  intros Hwf pid i1 i2 H1 H2.
  apply (In_get _ _ _ Hwf) in H1. apply (In_get _ _ _ Hwf) in H2. congruence.
Qed.

Lemma wf_nil {V : Type} : wf (@nil (Z * V)).
Proof. constructor. Qed.

Lemma wf_procs_absent data : processes data = None -> one_entry_per_pid data.
Proof. unfold one_entry_per_pid, procs. intros ->. apply wf_nil. Qed.

Lemma wf_migrate_client env acc item : wf acc -> wf (migrate_client env acc item).
Proof.
  intros H. destruct item as [cid ci]. unfold migrate_client.
  destruct (c_pid ci) as [p|]; [|exact H].
  destruct (_ && _); [apply wf_set|]; exact H.
Qed.

Lemma wf_migrate_clients env l : forall acc,
  wf acc -> wf (fold_left (migrate_client env) l acc).
Proof.
  induction l as [|item l IH]; intros acc H; simpl; [exact H|].
  apply IH, wf_migrate_client, H.
Qed.

Lemma wf_migrate env data :
  one_entry_per_pid data -> one_entry_per_pid (migrate_legacy_structure env data).
Proof.
  unfold one_entry_per_pid, migrate_legacy_structure. intros H.
  destruct (fully_migrated data); [exact H|].
  unfold procs at 1. cbn [processes]. apply wf_migrate_clients.
  destruct (api_pid data) as [p|]; [|exact H].
  destruct (_ && _); [apply wf_set|]; exact H.
Qed.

Lemma wf_register_api_pid env data data' :
  one_entry_per_pid data ->
  register_api_pid env data = Return data' -> one_entry_per_pid data'.
Proof.
  unfold register_api_pid. intros H.
  destruct (check_pid_conflict data (getpid env) "api_server"); [discriminate|].
  intros [= <-]. unfold one_entry_per_pid, procs at 1. cbn [processes set_primary_api set_processes].
  apply wf_set. apply wf_migrate.
  destruct (processes data) eqn:E; [exact H|].
  unfold one_entry_per_pid, procs. cbn. apply wf_nil.
Qed.

Lemma wf_unregister_api_pid env data :
  one_entry_per_pid data -> one_entry_per_pid (unregister_api_pid env data).
Proof.
  intros H. apply (wf_migrate env) in H. unfold unregister_api_pid.
  set (d := migrate_legacy_structure env data) in *.
  unfold one_entry_per_pid in *.
  destruct (get (getpid env) (procs d)) as [info|]; [|exact H].
  destruct (has_type "api_server" info); [|exact H].
  destruct (opt_Z_eqb (primary_api d) (Some (getpid env))); apply wf_pop, H.
Qed.

Lemma keys_map_touch env (d : dict ProcInfo) :
  keys (map (fun kv => (fst kv, touch env (snd kv))) d) = keys d.
Proof.
  unfold keys. rewrite map_map. reflexivity.
Qed.

Lemma wf_cleanup_stale_processes env data :
  one_entry_per_pid data -> one_entry_per_pid (cleanup_stale_processes env data).
Proof.
  intros H. apply (wf_migrate env) in H. unfold cleanup_stale_processes.
  set (d := migrate_legacy_structure env data) in *.
  unfold one_entry_per_pid, procs at 1. cbn [processes set_processes].
  unfold wf. rewrite keys_map_touch. apply wf_filter, H.
Qed.

Lemma wf_clean_stale_pids env data :
  one_entry_per_pid data -> one_entry_per_pid (clean_stale_pids env data).
Proof.
  intros H. apply (wf_migrate env) in H. unfold clean_stale_pids.
  set (d := migrate_legacy_structure env data) in *.
  assert (H' : one_entry_per_pid
                 (match api_pid d with
                  | Some p => if truthy_int (Some p) && HAS_PSUTIL env && negb (pid_exists env p)
                              then set_api_pid None d else d
                  | None => d
                  end)).
  { destruct (api_pid d) as [p|]; [|exact H]. destruct (_ && _); exact H. }
  revert H'. generalize (match api_pid d with
                  | Some p => if truthy_int (Some p) && HAS_PSUTIL env && negb (pid_exists env p)
                              then set_api_pid None d else d
                  | None => d
                  end). intros d1 H1.
  destruct (processes d1) as [ps|] eqn:E; [|exact H1].
  destruct (HAS_PSUTIL env); [|exact H1].
  unfold one_entry_per_pid, procs in *. cbn [processes set_processes].
  rewrite E in H1. apply wf_filter, H1.
Qed.

Lemma wf_add_client self env data :
  one_entry_per_pid data -> one_entry_per_pid (add_client self env data).
Proof.
  intros H. apply (wf_migrate env) in H. unfold add_client.
  destruct (check_pid_conflict _ _ _); [exact H|].
  unfold one_entry_per_pid, procs at 1. cbn [processes set_processes].
  apply wf_set, H.
Qed.

Lemma wf_remove_client self env data :
  one_entry_per_pid data -> one_entry_per_pid (remove_client self env data).
Proof.
  intros H. apply (wf_migrate env) in H. unfold remove_client.
  set (d := migrate_legacy_structure env data) in *.
  unfold one_entry_per_pid in *.
  destruct (get (getpid env) (procs d)) as [info|]; [|exact H].
  destruct (opt_string_eqb _ _); [apply wf_pop|]; exact H.
Qed.

Lemma procs_update_and_check_rate_limit now port data :
  procs (update_and_check_rate_limit now port data) = procs data.
Proof.
  unfold update_and_check_rate_limit. destruct (_ <=? _)%nat; reflexivity.
Qed.

Lemma wf_read f default :
  file_holds one_entry_per_pid f -> processes default = None ->
  one_entry_per_pid (_read_json_safe f default).
Proof.
  destruct f as [d|]; simpl; intros H E; [exact H|]. apply wf_procs_absent, E.
Qed.

Lemma registry_step_one_entry f step :
  file_holds one_entry_per_pid f ->
  file_holds one_entry_per_pid (registry_step f step).
Proof.
  intros H. destruct step as [env op]. destruct op; cbn [registry_step].
  - unfold register_api_server. destruct (negb _); [exact H|].
    unfold atomic_json_update.
    destruct (register_api_pid env _) as [d'|e] eqn:E; [|exact H].
    simpl. eapply wf_register_api_pid; [|exact E]. now apply wf_read.
  - unfold unregister_api_server. destruct (negb _); [exact H|].
    destruct (with_coordination_lock_bound m); [exact H|].
    simpl. apply wf_unregister_api_pid. now apply wf_read.
  - unfold cleanup_process_registry. destruct (negb _); [exact H|].
    unfold atomic_json_update. destruct (_ && _); [exact I|].
    simpl. apply wf_cleanup_stale_processes. now apply wf_read.
  - destruct f as [d|]; [|exact I]. simpl. apply wf_clean_stale_pids, H.
  - unfold _register_mcp_client. simpl. apply wf_add_client. now apply wf_read.
  - unfold _unregister_mcp_client, with_coordination_lock, coordinated_unregister.
    unfold atomic_json_update. destruct (_ && _); [exact I|].
    simpl. apply wf_remove_client. now apply wf_read.
  - unfold _check_startup_rate_limit, atomic_json_update.
    destruct (opt_Z_eqb _ _); simpl;
      (unfold one_entry_per_pid; rewrite procs_update_and_check_rate_limit;
       now apply wf_read).
Qed.

Lemma registry_run_one_entry steps : forall f,
  file_holds one_entry_per_pid f ->
  file_holds one_entry_per_pid (registry_run f steps).
Proof.
  induction steps as [|step steps IH]; intros f H; simpl; [exact H|].
  apply IH, registry_step_one_entry, H.
Qed.

(** ** Rejection of a registration under a second type *)

Lemma conflict_of_registered data pid ty :
  registered_as_other data pid ty -> check_pid_conflict data pid ty = true.
Proof.
  intros (info & Hget & Hty). unfold check_pid_conflict.
  assert (E : existsb (fun kv => (fst kv =? pid) && negb (has_type ty (snd kv)))
                      (procs data) = true).
  { apply existsb_exists. exists (pid, info). split; [apply get_In, Hget|].
    simpl. rewrite Z.eqb_refl, Hty. reflexivity. }
  rewrite E. reflexivity.
Qed.

Lemma migrate_client_keeps env acc item pid info :
  get pid acc = Some info -> get pid (migrate_client env acc item) = Some info.
Proof.
  intros H. destruct item as [cid ci]. unfold migrate_client.
  destruct (c_pid ci) as [p|]; [|exact H].
  destruct (truthy_int (Some p) && HAS_PSUTIL env && pid_exists env p && negb (mem p acc))
    eqn:G; [|exact H].
  apply andb_prop in G. destruct G as [_ G].
  rewrite get_set. destruct (pid =? p) eqn:E; [|exact H].
  apply Z.eqb_eq in E. subst p. unfold mem in G. rewrite H in G. discriminate.
Qed.

Lemma migrate_clients_keep env l : forall acc pid info,
  get pid acc = Some info -> get pid (fold_left (migrate_client env) l acc) = Some info.
Proof.
  induction l as [|item l IH]; intros acc pid info H; simpl; [exact H|].
  apply IH, migrate_client_keeps, H.
Qed.

Lemma migrate_keeps_other_type env data pid :
  registered_as_other data pid "mcp_client" ->
  registered_as_other (migrate_legacy_structure env data) pid "mcp_client".
Proof.
  intros (info & Hget & Hty). unfold migrate_legacy_structure.
  destruct (fully_migrated data); [exists info; auto|].
  unfold registered_as_other, procs at 1. cbn [processes].
  destruct (api_pid data) as [p|].
  - destruct (truthy_int (Some p) && HAS_PSUTIL env && pid_exists env p).
    + destruct (Z.eq_dec pid p) as [->|Hne].
      * exists (api_entry env). split; [|reflexivity].
        apply migrate_clients_keep, get_set_same.
      * exists info. split; [|exact Hty].
        apply migrate_clients_keep. rewrite get_set_other; assumption.
    + exists info. split; [|exact Hty]. apply migrate_clients_keep, Hget.
  - exists info. split; [|exact Hty]. apply migrate_clients_keep, Hget.
Qed.

Lemma fully_migrated_of_flat data :
  processes data <> None -> legacy_shape data = false -> fully_migrated data = true.
Proof.
  unfold legacy_shape, fully_migrated. intros Hp H.
  destruct (processes data); [|congruence].
  apply orb_false_iff in H. destruct H as [-> ->]. reflexivity.
Qed.

(** C4, as the code has it.  A registration of a PID already present under
    the other type adds nothing for that PID.  The API-server registration
    raises inside the update, so nothing is written and the call answers
    [False].  The MCP-client registration writes back the migrated document
    and no more: the PID is still registered under its other type there, and
    a document without legacy data is written back unchanged.  After any
    sequence of registry updates the file has one entry per PID and no PID
    under two types. *)
Theorem conflicting_registration_adds_nothing :
  (forall m env data,
      AtomicFileOperations m = true ->
      registered_as_other data (getpid env) "api_server" ->
      register_api_server m env (Some data) = (false, Some data))
  /\ (forall self env data,
        registered_as_other data (getpid env) "mcp_client" ->
        snd (_register_mcp_client self env (Some data))
        = Some (migrate_legacy_structure env data)
        /\ registered_as_other (migrate_legacy_structure env data) (getpid env) "mcp_client"
        /\ (legacy_shape data = false ->
            snd (_register_mcp_client self env (Some data)) = Some data))
  /\ (forall f steps,
        file_holds one_entry_per_pid f ->
        file_holds one_entry_per_pid (registry_run f steps)
        /\ file_holds one_type_per_pid (registry_run f steps)).
Proof.
  split; [|split].
  - intros m env data Hm Hreg. unfold register_api_server. rewrite Hm. simpl.
    unfold atomic_json_update, register_api_pid. simpl.
    rewrite (conflict_of_registered _ _ _ Hreg). reflexivity.
  - intros self env data Hreg.
    pose proof (migrate_keeps_other_type env data _ Hreg) as Hreg'.
    assert (E : add_client self env data = migrate_legacy_structure env data).
    { unfold add_client. rewrite (conflict_of_registered _ _ _ Hreg'). reflexivity. }
    unfold _register_mcp_client, atomic_json_update. simpl. rewrite E.
    split; [reflexivity|]. split; [exact Hreg'|].
    intros Hflat. unfold migrate_legacy_structure.
    rewrite fully_migrated_of_flat; [reflexivity| |exact Hflat].
    destruct Hreg as (info & Hget & _). unfold procs in Hget.
    destruct (processes data); [discriminate|]. simpl in Hget. discriminate.
  - intros f steps H.
    pose proof (registry_run_one_entry steps f H) as H'.
    split; [exact H'|].
    destruct (registry_run f steps); [|exact I]. apply wf_one_type, H'.
Qed.

Lemma conflicting_registration_adds_nothing_witness :
  registered_as_other (flat_doc [(100, mcp_info "mcp_100_7")] None) 100 "api_server"
  /\ register_api_server imported (host 100 [100])
       (Some (flat_doc [(100, mcp_info "mcp_100_7")] None))
     = (false, Some (flat_doc [(100, mcp_info "mcp_100_7")] None)).
Proof.
  assert (H : registered_as_other (flat_doc [(100, mcp_info "mcp_100_7")] None)
                                  100 "api_server").
  { exists (mcp_info "mcp_100_7"). split; reflexivity. }
  split; [exact H|].
  exact (proj1 conflicting_registration_adds_nothing imported (host 100 [100])
               (flat_doc [(100, mcp_info "mcp_100_7")] None) eq_refl H).
Defined.

(** The claim of C4 as written fails for the MCP-client registration: PID
    100 is registered as an API server and registers as an MCP client while a
    legacy client entry for the live PID 200 is left in the document; the
    registration is refused, but the update still migrates the legacy entry,
    so the [processes] mapping written differs from the one read. *)
Lemma mcp_conflict_still_changes_processes :
  registered_as_other doc_api_and_legacy_client 100 "mcp_client"
  /\ exists data',
      snd (_register_mcp_client (mcp_server "mcp_100_7" false) (host 100 [100; 200])
                                (Some doc_api_and_legacy_client)) = Some data'
      /\ procs data' <> procs doc_api_and_legacy_client.
Proof.
  split.
  - exists api_info. split; reflexivity.
  - eexists. split; [reflexivity|]. intros H. vm_compute in H. discriminate H.
Qed.

(** On the legacy sample, with PID 200 the only one alive: the API entry and
    the client of PID 300 are dropped, the client of PID 200 is carried over. *)
Example migrate_doc_legacy :
  migrate_legacy_structure (host 1 [200]) doc_legacy
  = flat_doc [(200, {| p_type := Some "mcp_client"; p_client_id := Some "mcp_200_1";
                       p_started := Some 900%Q; p_repository := None;
                       p_last_heartbeat := Some 1000%Q |})] None.
Proof. reflexivity. Qed.

Lemma migrate_legacy_carries_only_live_pids_witness :
  legacy_shape doc_legacy = true
  /\ (let migrated := migrate_legacy_structure (host 1 [200]) doc_legacy in
      api_pid migrated = None
      /\ clients migrated = None
      /\ (forall pid,
            get pid (procs migrated) <> get pid (procs doc_legacy) ->
            HAS_PSUTIL (host 1 [200]) = true /\ pid_exists (host 1 [200]) pid = true
            /\ (api_pid doc_legacy = Some pid \/ legacy_client_pid doc_legacy pid))
      /\ (forall pid,
            HAS_PSUTIL (host 1 [200]) = false \/ pid_exists (host 1 [200]) pid = false ->
            get pid (procs migrated) = get pid (procs doc_legacy))).
Proof.
  split; [reflexivity|].
  exact (migrate_legacy_carries_only_live_pids (host 1 [200]) doc_legacy eq_refl).
Defined.

(** ** Unregistering the API server *)

(** The inner update does what its docstring says: the caller's entry goes
    exactly when it is registered as an API server. *)
Lemma unregister_api_pid_removes env data :
  legacy_shape data = false -> processes data <> None ->
  forall pid,
    get pid (procs (unregister_api_pid env data))
    = if (pid =? getpid env)
         && match get (getpid env) (procs data) with
            | Some info => has_type "api_server" info
            | None => false
            end
      then None else get pid (procs data).
Proof.
  intros Hflat Hp pid. unfold unregister_api_pid, migrate_legacy_structure.
  rewrite (fully_migrated_of_flat _ Hp Hflat).
  destruct (get (getpid env) (procs data)) as [info|] eqn:G.
  - destruct (has_type "api_server" info).
    + rewrite andb_true_r.
      destruct (opt_Z_eqb (primary_api data) (Some (getpid env)));
        unfold procs at 1; cbn [processes set_processes set_primary_api];
        apply get_pop.
    + rewrite andb_false_r. reflexivity.
  - rewrite andb_false_r. reflexivity.
Qed.

Lemma first_api_server_sound (ps : dict ProcInfo) p :
  wf ps -> first_api_server ps = Some p ->
  exists info, get p ps = Some info /\ has_type "api_server" info = true.
Proof.
  unfold first_api_server. intros Hwf H.
  destruct (find _ ps) as [[k v]|] eqn:F; [|discriminate].
  injection H as <-. apply find_some in F. destruct F as [Hin Hty].
  exists v. split; [apply In_get; assumption|exact Hty].
Qed.

Lemma migrate_primary env data :
  primary_api_valid data -> primary_api_valid (migrate_legacy_structure env data).
Proof.
  intros H. unfold migrate_legacy_structure.
  destruct (fully_migrated data); [exact H|].
  unfold primary_api_valid, procs at 1. cbn [processes primary_api].
  destruct (api_pid data) as [p|]; [|exact I].
  destruct (truthy_int (Some p) && HAS_PSUTIL env && pid_exists env p); [|exact I].
  exists (api_entry env). split; [|reflexivity].
  apply migrate_clients_keep, get_set_same.
Qed.

(** After the inner update, [primary_api] names a registered API server or
    is cleared. *)
Lemma unregister_api_pid_primary env data :
  one_entry_per_pid data -> primary_api_valid data ->
  primary_api_valid (unregister_api_pid env data).
Proof.
  intros Hwf Hprim. apply (wf_migrate env) in Hwf. apply (migrate_primary env) in Hprim.
  unfold unregister_api_pid.
  set (d := migrate_legacy_structure env data) in *.
  destruct (get (getpid env) (procs d)) as [info|] eqn:G.
  - destruct (has_type "api_server" info).
    + destruct (opt_Z_eqb (primary_api d) (Some (getpid env))) eqn:E.
      * unfold primary_api_valid, procs at 1.
        cbn [processes primary_api set_processes set_primary_api].
        destruct (first_api_server (pop (getpid env) (procs d))) as [q|] eqn:F; [|exact I].
        apply first_api_server_sound; [apply wf_pop, Hwf|exact F].
      * unfold primary_api_valid in *. cbn [processes primary_api set_processes].
        destruct (primary_api d) as [q|]; [|exact I].
        destruct Hprim as (i & Hi & Hty). exists i. split; [|exact Hty].
        unfold procs at 1. cbn [processes set_processes]. rewrite get_pop.
        simpl in E. destruct (q =? getpid env); [discriminate|exact Hi].
    + unfold primary_api_valid in *. cbn [processes primary_api set_processes].
      destruct (primary_api d) as [q|]; [|exact I]. exact Hprim.
  - unfold primary_api_valid in *. cbn [processes primary_api set_processes].
    destruct (primary_api d) as [q|]; [|exact I]. exact Hprim.
Qed.

(** C5.  With [process_registry.py] imported normally, [unregister_api_server]
    stops at the undefined name [port] before it touches the registry: it
    answers [False] and the file is what it was, for every registry file.  On
    a document in which the caller is the registered primary API server, the
    entry is still there afterwards and [primary_api] still names it. *)
Theorem unregister_api_server_never_unregisters :
  (forall env f, unregister_api_server imported env f = (false, f))
  /\ unregister_api_server imported (host 100 [100; 200])
       (Some (flat_doc [(100, api_info); (200, mcp_info "mcp_200_1")] (Some 100)))
     = (false, Some (flat_doc [(100, api_info); (200, mcp_info "mcp_200_1")] (Some 100)))
  /\ unregister_api_pid (host 100 [100; 200])
       (flat_doc [(100, api_info); (200, mcp_info "mcp_200_1")] (Some 100))
     = flat_doc [(200, mcp_info "mcp_200_1")] None.
Proof.
  split; [|split]; reflexivity.
Qed.

(** ** When the registry file is removed *)

Lemma migrated_has_no_legacy env data :
  truthy_int (api_pid (migrate_legacy_structure env data)) = false
  /\ truthy_list (clients (migrate_legacy_structure env data)) = false.
Proof.
  unfold migrate_legacy_structure, fully_migrated.
  destruct (processes data); [|split; reflexivity].
  destruct (truthy_int (api_pid data)) eqn:Ea; simpl; [split; reflexivity|].
  destruct (truthy_list (clients data)) eqn:Ec; simpl; [split; reflexivity|].
  split; assumption.
Qed.

Lemma cleanup_stale_processes_no_legacy env data :
  truthy_int (api_pid (cleanup_stale_processes env data)) = false
  /\ truthy_list (clients (cleanup_stale_processes env data)) = false.
Proof.
  destruct (migrated_has_no_legacy env data) as [Ha Hc].
  unfold cleanup_stale_processes.
  set (d := migrate_legacy_structure env data) in *.
  destruct (primary_api d) as [p|];
    [destruct (truthy_int (Some p) && _)|];
    cbn [api_pid clients set_processes set_primary_api]; split; assumption.
Qed.

(** The test that guards the [unlink] of [cleanup_process_registry] reads the
    legacy keys of a document that has just been migrated, so it always
    passes: the cleanup pass removes the file whatever [processes] holds. *)
Lemma cleanup_process_registry_always_unlinks env f :
  cleanup_process_registry imported env f = (true, None).
Proof.
  unfold cleanup_process_registry, atomic_json_update.
  cbn [imported AtomicFileOperations negb].
  destruct (cleanup_stale_processes_no_legacy env (_read_json_safe f empty_doc))
    as [Ha Hc].
  rewrite Ha, Hc. reflexivity.
Qed.

(** C6, as the code has it by design.  The MCP-client unregister removes
    the registry file when, in the document it has just written, no entry of
    type [mcp_client] is left and this client started the API server, whether
    or not [api_server] entries are still in the mapping; while an
    [mcp_client] entry is left it does not remove the file, which then holds
    that document.  The API-server unregister never removes the file. *)
Theorem unregister_removes_file_after_last_client_of_own_api :
  (forall self env f,
      let written := remove_client self env (_read_json_safe f clients_default) in
      (count_type "mcp_client" (procs written) = 0%nat ->
       _we_started_api self = true ->
       snd (_unregister_mcp_client self env f) = None)
      /\ (count_type "mcp_client" (procs written) <> 0%nat ->
          snd (_unregister_mcp_client self env f) = Some written))
  /\ (forall m env f, snd (unregister_api_server m env f) = None -> f = None).
Proof.
  split.
  - intros self env f written.
    unfold _unregister_mcp_client, with_coordination_lock, coordinated_unregister,
      atomic_json_update.
    fold written.
    destruct (Nat.eqb_spec (count_type "mcp_client" (procs written)) 0) as [E|E].
    + split; [|intros H; contradiction].
      intros _ Hown. rewrite Hown. reflexivity.
    + split; [intros H; contradiction|].
      intros _. reflexivity.
  - intros m env f. unfold unregister_api_server.
    destruct (negb _); [simpl; auto|].
    destruct (with_coordination_lock_bound m); simpl; [auto|discriminate].
Qed.

Lemma unregister_removes_file_after_last_client_of_own_api_witness :
  snd (_unregister_mcp_client (mcp_server "mcp_200_1" true) (host 200 [200])
         (Some (flat_doc [(200, mcp_info "mcp_200_1")] None)))
  = None
  /\ snd (_unregister_mcp_client (mcp_server "mcp_200_1" true) (host 200 [200; 300])
            (Some (flat_doc [(200, mcp_info "mcp_200_1"); (300, mcp_info "mcp_300_1")]
                            None)))
     = Some (flat_doc [(300, mcp_info "mcp_300_1")] None).
Proof.
  split.
  - apply (proj1 (proj1 unregister_removes_file_after_last_client_of_own_api
                    (mcp_server "mcp_200_1" true) (host 200 [200])
                    (Some (flat_doc [(200, mcp_info "mcp_200_1")] None))));
      reflexivity.
  - apply (proj2 (proj1 unregister_removes_file_after_last_client_of_own_api
                    (mcp_server "mcp_200_1" true) (host 200 [200; 300])
                    (Some (flat_doc [(200, mcp_info "mcp_200_1");
                                     (300, mcp_info "mcp_300_1")] None)))).
    discriminate.
Defined.

(** The claim of C6 as written fails: the last client of an API server it
    started removes the file although the [processes] mapping it has just
    written still holds the API server's entry. *)
Lemma file_removal_is_not_tied_to_empty_registry :
  snd (_unregister_mcp_client (mcp_server "mcp_200_1" true) (host 200 [100; 200])
         (Some (flat_doc [(100, api_info); (200, mcp_info "mcp_200_1")] (Some 100))))
  = None
  /\ procs (remove_client (mcp_server "mcp_200_1" true) (host 200 [100; 200])
              (flat_doc [(100, api_info); (200, mcp_info "mcp_200_1")] (Some 100)))
     = [(100, api_info)].
Proof.
  split; reflexivity.
Qed.

(** ** Validity of [primary_api] *)

Lemma register_api_pid_primary env data data' :
  register_api_pid env data = Return data' -> primary_api_valid data'.
Proof.
  unfold register_api_pid.
  destruct (check_pid_conflict data (getpid env) "api_server"); [discriminate|].
  intros [= <-]. unfold primary_api_valid, procs at 1.
  cbn [processes primary_api set_processes set_primary_api].
  exists (api_entry env). split; [apply get_set_same|reflexivity].
Qed.

Lemma add_client_primary self env data :
  primary_api_valid data -> primary_api_valid (add_client self env data).
Proof.
  intros H. apply (migrate_primary env) in H. unfold add_client.
  set (d := migrate_legacy_structure env data) in *.
  destruct (check_pid_conflict d (getpid env) "mcp_client") eqn:C; [exact H|].
  unfold primary_api_valid in *. cbn [processes primary_api set_processes].
  destruct (primary_api d) as [q|]; [|exact I].
  destruct H as (i & Hi & Hty). exists i. split; [|exact Hty].
  unfold procs at 1. cbn [processes set_processes].
  rewrite get_set. destruct (q =? getpid env) eqn:E; [|exact Hi].
  apply Z.eqb_eq in E. subst q.
  rewrite conflict_of_registered in C; [discriminate|].
  exists i. split; [exact Hi|].
  unfold has_type in *. destruct (p_type i) as [t|]; [|discriminate].
  simpl in *. apply String.eqb_eq in Hty. subst t. reflexivity.
Qed.

Lemma get_map_touch env (d : dict ProcInfo) k :
  get k (map (fun kv => (fst kv, touch env (snd kv))) d)
  = option_map (touch env) (get k d).
Proof.
  induction d as [|[k0 v0] r IH]; simpl; [reflexivity|].
  destruct (k =? k0); [reflexivity|exact IH].
Qed.

(** The pruning pass of [process_registry.py] repairs [primary_api] when the
    primary is gone. *)
Lemma cleanup_stale_processes_primary env data :
  one_entry_per_pid data -> primary_api_valid data ->
  primary_api (migrate_legacy_structure env data) <> Some 0 ->
  primary_api_valid (cleanup_stale_processes env data).
Proof.
  intros Hwf Hprim Hnz. apply (wf_migrate env) in Hwf. apply (migrate_primary env) in Hprim.
  unfold cleanup_stale_processes.
  set (d := migrate_legacy_structure env data) in *.
  set (active := map (fun kv => (fst kv, touch env (snd kv)))
                     (filter (fun kv => HAS_PSUTIL env && pid_exists env (fst kv)) (procs d))).
  assert (Hact : wf active).
  { unfold active, wf. rewrite keys_map_touch. apply wf_filter, Hwf. }
  unfold primary_api_valid in Hprim.
  destruct (primary_api d) as [p|] eqn:Ep.
  - destruct (truthy_int (Some p) && (negb (HAS_PSUTIL env) || negb (pid_exists env p))) eqn:G.
    + unfold primary_api_valid, procs at 1.
      cbn [processes primary_api set_processes set_primary_api].
      destruct (first_api_server active) as [q|] eqn:F; [|exact I].
      apply first_api_server_sound; assumption.
    + unfold primary_api_valid, procs at 1.
      cbn [processes primary_api set_processes]. rewrite Ep.
      destruct Hprim as (i & Hi & Hty). exists (touch env i). split; [|exact Hty].
      unfold active. rewrite get_map_touch.
      rewrite (get_filter_key (procs d) (fun k => HAS_PSUTIL env && pid_exists env k) p).
      apply andb_false_iff in G. destruct G as [G|G].
      * simpl in G. apply negb_false_iff, Z.eqb_eq in G. subst p. congruence.
      * apply orb_false_iff in G. destruct G as [G1 G2].
        apply negb_false_iff in G1, G2. rewrite G1, G2. simpl. rewrite Hi. reflexivity.
  - unfold primary_api_valid, procs at 1. cbn [processes primary_api set_processes].
    rewrite Ep. exact I.
Qed.

(** C7.  The pruning pass of [server.py] removes the entries of dead PIDs and
    leaves [primary_api] as it was.  On a valid document whose primary API
    server (PID 100) has died, [clean_stale_pids] writes a document whose
    [primary_api] still is 100 while [processes] has no entry for it; the
    pruning pass of [process_registry.py] clears the field on the same
    input. *)
Theorem clean_stale_pids_leaves_dangling_primary_api :
  primary_api_valid (flat_doc [(100, api_info); (200, mcp_info "mcp_200_1")] (Some 100))
  /\ clean_stale_pids (host 200 [200])
       (flat_doc [(100, api_info); (200, mcp_info "mcp_200_1")] (Some 100))
     = flat_doc [(200, mcp_info "mcp_200_1")] (Some 100)
  /\ ~ primary_api_valid
         (clean_stale_pids (host 200 [200])
            (flat_doc [(100, api_info); (200, mcp_info "mcp_200_1")] (Some 100)))
  /\ primary_api
       (cleanup_stale_processes (host 200 [200])
          (flat_doc [(100, api_info); (200, mcp_info "mcp_200_1")] (Some 100)))
     = None.
Proof.
  split; [|split; [|split]].
  - exists api_info. split; reflexivity.
  - reflexivity.
  - intros (info & Hget & _). vm_compute in Hget. discriminate Hget.
  - reflexivity.
Qed.

(** ** PID reuse at shutdown *)

Lemma Qgtb_true a b : Qgtb a b = true <-> (b < a)%Q.
Proof.
  unfold Qgtb. rewrite negb_true_iff. split.
  - intros H. apply Qnot_le_lt. intros Hle. apply Qle_bool_iff in Hle. congruence.
  - intros H. destruct (Qle_bool a b) eqn:E; [|reflexivity].
    apply Qle_bool_iff in E. exfalso. exact (Qlt_not_le _ _ H E).
Qed.

Lemma Qgtb_false a b : Qgtb a b = false <-> (a <= b)%Q.
Proof.
  unfold Qgtb. rewrite negb_false_iff. apply Qle_bool_iff.
Qed.

(** C8, as the code has it.  When the process now bearing the recorded
    server PID has a creation time more than one second away from the
    recorded (non-zero) start time, shutdown sends that PID no signal. *)
Theorem shutdown_skips_recycled_pid self env table f pid t0 proc :
  _api_server_pid self = Some pid ->
  _api_server_start_time self = Some t0 ->
  ~ (t0 == 0)%Q ->
  psutil_Process env table pid = Some proc ->
  (1 < Qabs (create_time proc - t0))%Q ->
  snd (_perform_cleanup self env table f) = [].
Proof.
  intros Hpid Ht0 Hnz Hproc Hdiff. unfold _perform_cleanup.
  destruct (_cleanup_in_progress self); [reflexivity|].
  destruct (_unregister_mcp_client self env f) as [should f']. cbn [snd].
  destruct (negb should); [reflexivity|].
  destruct (negb (_we_started_api self)); [reflexivity|].
  rewrite Hpid. destruct (truthy_int (Some pid)); [|reflexivity].
  unfold terminate_server. rewrite Hproc, Ht0.
  assert (E1 : truthy_float (Some t0) = true).
  { unfold truthy_float. apply negb_true_iff.
    destruct (Qeq_bool t0 0) eqn:E; [|reflexivity].
    apply Qeq_bool_iff in E. contradiction. }
  assert (E2 : Qgtb (Qabs (create_time proc - t0)) 1 = true) by (apply Qgtb_true, Hdiff).
  rewrite E1, E2. reflexivity.
Qed.

Lemma shutdown_skips_recycled_pid_witness :
  snd (_perform_cleanup (owning_client 5000) (host 200 [100; 200])
                        (table_with_server 5002) (Some doc_api_and_client)) = [].
Proof.
  apply (shutdown_skips_recycled_pid (owning_client 5000) (host 200 [100; 200])
           (table_with_server 5002) (Some doc_api_and_client) 100 5000
           {| create_time := 5002;
              cmdline := ["python"; "-m"; "uvicorn"; "src.main:app"];
              stops_on_terminate := true |}).
  - reflexivity.
  - reflexivity.
  - intros H. discriminate H.
  - reflexivity.
  - reflexivity.
Defined.

(** The claim of C8 as written fails at the boundary: the recorded start time
    is 5000 and the process now bearing PID 100 was created at 5001, one
    second apart; the last client of the API it started sends PID 100 the
    termination signal. *)
Lemma shutdown_terminates_at_one_second :
  (1 <= Qabs (5001 - 5000))%Q
  /\ psutil_Process (host 200 [100; 200]) (table_with_server 5001) 100
     = Some {| create_time := 5001;
               cmdline := ["python"; "-m"; "uvicorn"; "src.main:app"];
               stops_on_terminate := true |}
  /\ snd (_perform_cleanup (owning_client 5000) (host 200 [100; 200])
                           (table_with_server 5001) (Some doc_api_and_client))
     = [Terminate 100].
Proof.
  split; [|split].
  - intros H. discriminate H.
  - reflexivity.
  - reflexivity.
Qed.

(** ** Writes of the lease file *)

Lemma upd_same (s : fs) p c : upd s p c p = c.
Proof. unfold upd. rewrite String.eqb_refl. reflexivity. Qed.

Lemma release_lock_absent self s : release_lock self s (lock_file self) = Absent.
Proof.
  unfold release_lock, release_lock_ops, exists_.
  destruct (s (lock_file self)) eqn:E; simpl; try apply upd_same. exact E.
Qed.

(** C9, as the code has it.  Both writers of the lease file open the lease
    path itself for writing and dump the JSON into it: no call renames
    anything, a reader meets the truncated file and then the new lease, and
    the new lease is what the path holds in the end.  [update_lock] does so
    whenever the file holds a lease of this agent. *)
Theorem lease_is_written_in_place self now :
  (forall task wt br s,
      let ops := lock_task_ops self now task wt br in
      (forall src dst, ~ In (Rename src dst) ops)
      /\ exists d,
          observed (lock_file self) (states_during s ops) = [Empty; Holds d]
          /\ lock_task self now task wt br s (lock_file self) = Holds d
          /\ task_data d = Some task)
  /\ (forall path branch s d,
        s (lock_file self) = Holds d ->
        agent_id d = Some (self_agent_id self) ->
        let ops := update_lock_ops self now path branch s in
        (forall src dst, ~ In (Rename src dst) ops)
        /\ exists d',
            observed (lock_file self) (states_during s ops) = [Empty; Holds d']
            /\ update_lock self now path branch s (lock_file self) = Holds d'
            /\ worktree_path d' = Some path /\ branch_name d' = Some branch
            /\ task_data d' = task_data d).
Proof.
  split.
  - intros task wt br s ops. split.
    + intros src dst [H|[H|[]]]; discriminate H.
    + eexists. unfold lock_task. subst ops. unfold lock_task_ops, observed.
      cbn [states_during map run_ops fold_left apply_op].
      rewrite !upd_same. repeat split.
  - intros path branch s d Hs Hag ops. subst ops.
    unfold update_lock, update_lock_ops, get_locked_task_ops.
    rewrite Hs, Hag. unfold opt_string_eqb. rewrite String.eqb_refl.
    cbn [negb app]. split.
    + intros src dst [H|[H|[]]]; discriminate H.
    + eexists. unfold observed.
      cbn [states_during map run_ops fold_left apply_op].
      rewrite !upd_same. repeat split.
Qed.

Lemma lease_is_written_in_place_witness :
  exists d',
    observed (lock_file agent_a1)
             (states_during fs_with_lease
                (update_lock_ops agent_a1 1000 "./.worktrees/task-42" "task-42"
                                 fs_with_lease))
    = [Empty; Holds d']
    /\ worktree_path d' = Some "./.worktrees/task-42".
Proof.
  destruct (proj2 (lease_is_written_in_place agent_a1 1000)
                  "./.worktrees/task-42" "task-42" fs_with_lease lease_42
                  eq_refl eq_refl) as [_ (d' & H1 & _ & H2 & _)].
  exists d'. split; assumption.
Defined.

(** The claim of C9 as written fails: re-leasing over an existing lease
    renames nothing onto the lease path, and between the two calls the path
    holds an empty file, which is neither the old lease nor the new one; a
    reader that loads the lease at that moment takes it for corrupt and
    removes it. *)
Lemma lease_write_is_not_atomic :
  let ops := lock_task_ops agent_a1 1000 (task_42 "created") None None in
  ~ renames_onto (lock_file agent_a1) ops
  /\ ~ atomic_write (fs_with_lease (lock_file agent_a1))
                    (run_ops fs_with_lease ops (lock_file agent_a1))
                    (observed (lock_file agent_a1) (states_during fs_with_lease ops))
  /\ get_locked_task_ops agent_a1 (apply_op fs_with_lease (OpenW (lock_file agent_a1)))
     = (None, [Unlink (lock_file agent_a1)]).
Proof.
  cbv zeta. split; [|split].
  - intros (tmp & _ & [H|[H|[]]]); discriminate H.
  - intros H. inversion H as [|c l [Hc|Hc] _]; subst; vm_compute in Hc; discriminate Hc.
  - reflexivity.
Qed.

(** ** The runner and its lease *)

Lemma execute_task_fails_with_run we ir run timeout :
  llm_step_failed run = true -> fst (execute_task we ir run timeout) = false.
Proof.
  unfold execute_task. destruct we, ir; simpl; try reflexivity.
  destruct run as [rc e o| | |]; simpl; try reflexivity.
  intros H. apply negb_true_iff in H. rewrite H. reflexivity.
Qed.

(** After the PM lock, a failed subprocess step is shown as an error, the
    post-task hook is told of the failure, the operator is not asked, and
    the lease file is removed. *)
Lemma run_locked_task_failure self w task s ip :
  get_instructions_path w (role self) = Some ip ->
  llm_step_failed (subprocess_run w) = true ->
  fst (run_locked_task self w task s) (lock_file (persistence self)) = Absent
  /\ (exists m, In (UiExecutionError m) (snd (run_locked_task self w task s)))
  /\ In (PostTaskHook (t_id task) false) (snd (run_locked_task self w task s))
  /\ (forall c, ~ In (OperatorPrompt c) (snd (run_locked_task self w task s)))
  /\ (forall st, ~ In (PmUpdateStatus (t_id task) st) (snd (run_locked_task self w task s))).
Proof.
  intros Hip Hfail. unfold run_locked_task.
  set (major := opt_string_eqb (t_complexity task) (Some "major")).
  set (pre := if major then _ else _).
  destruct pre as [[wp s1] log1] eqn:Epre.
  assert (Hlog1 : forall e, In e log1 ->
                    e = UiSuccess "Worktree created" \/ e = UiError "Failed to create worktree").
  { subst pre. destruct major.
    - destruct (create_worktree w (t_id task)) as [[pa br]|];
          [destruct (update_lock_unencodable _ _) as [[u|u] s2]|];
        injection Epre as <- <- <-; intros e [<-|[]]; auto.
    - injection Epre as <- <- <-. intros e []. }
  rewrite Hip.
  destruct (execute_task (path_exists w wp) (instructions_readable w ip)
                         (subprocess_run w) (claude_timeout self)) as [success msg] eqn:Ex.
  pose proof (execute_task_fails_with_run (path_exists w wp) (instructions_readable w ip)
                (subprocess_run w) (claude_timeout self) Hfail) as Hs.
  rewrite Ex in Hs. simpl in Hs. subst success. cbn [fst snd].
  assert (Hneg : forall e,
            (forall x, e <> UiSuccess x) -> (forall x, e <> UiError x) ->
            (forall x, e <> UiInfo x) -> (forall x, e <> UiWarning x) ->
            (forall x, e <> UiExecutionError x) -> (forall x y, e <> PostTaskHook x y) ->
            ~ In e ((if major && negb (String.eqb wp cwd)
                     then ((log1 ++ [UiExecutionError msg])
                             ++ [PostTaskHook (t_id task) false])
                            ++ [if worktree_cleanup w
                                then UiInfo "Worktree cleaned up"
                                else UiWarning "Failed to cleanup worktree"]
                     else (log1 ++ [UiExecutionError msg])
                            ++ [PostTaskHook (t_id task) false])
                    ++ [UiSuccess "Task completed"])).
  { intros e H1 H2 H3 H4 H5 H6 H.
    destruct (major && negb (String.eqb wp cwd)); [destruct (worktree_cleanup w)|];
      rewrite !in_app_iff in H; simpl in H;
      repeat match goal with
             | H : _ \/ _ |- _ => destruct H as [H|H]
             | H : False |- _ => contradiction
             | H : In _ log1 |- _ => apply Hlog1 in H
             end;
      subst e;
      first [ exact (H1 _ eq_refl) | exact (H2 _ eq_refl) | exact (H3 _ eq_refl)
            | exact (H4 _ eq_refl) | exact (H5 _ eq_refl) | exact (H6 _ _ eq_refl) ]. }
  split; [apply release_lock_absent|].
  split.
  { exists msg.
    destruct (major && negb (String.eqb wp cwd)); rewrite !in_app_iff; simpl; tauto. }
  split.
  { destruct (major && negb (String.eqb wp cwd)); rewrite !in_app_iff; simpl; tauto. }
  split.
  - intros c. apply Hneg; intros; discriminate.
  - intros st. apply Hneg; intros; discriminate.
Qed.

(** C1.  In an execution that reaches the LLM subprocess step (the pre-task
    hook passes, the PM lock is granted, instructions exist) and in which
    that step fails, [_execute_task] returns with the failure shown and
    reported to the post-task hook, but the lease file is gone afterwards
    although the operator was never asked: the final [release_lock()] is
    unconditional. *)
Theorem failed_llm_step_releases_lease self w task s ip fuel :
  run_pre_task w 0%nat = true ->
  client_lock_task w (t_id task) = true ->
  get_instructions_path w (role self) = Some ip ->
  llm_step_failed (subprocess_run w) = true ->
  exists s' log,
    _execute_task (S fuel) self w 0 task s = Some (s', log)
    /\ s' (lock_file (persistence self)) = Absent
    /\ (exists m, In (UiExecutionError m) log)
    /\ In (PostTaskHook (t_id task) false) log
    /\ (forall c, ~ In (OperatorPrompt c) log).
Proof.
  intros Hpre Hlock Hip Hfail.
  destruct (run_locked_task_failure self w task s ip Hip Hfail)
    as (Habs & [m Hm] & Hpost & Hnop & _).
  cbn [_execute_task]. rewrite Hpre, Hlock.
  destruct (run_locked_task self w task s) as [s' log'] eqn:E. cbn [fst snd] in *.
  exists s', ([] ++ [PmLockTask (t_id task); UiSuccess "Task locked in PM system"] ++ log').
  split; [reflexivity|]. split; [exact Habs|].
  split; [exists m; simpl; auto|]. split; [simpl; auto|].
  intros c [H|[H|H]]; try discriminate H. exact (Hnop c H).
Qed.

Lemma failed_llm_step_releases_lease_witness :
  fs_with_lease (lock_file (persistence (runner_a1 "backend_dev"))) = Holds lease_42
  /\ exists s' log,
      _execute_task 1 (runner_a1 "backend_dev")
                    (quiet_world "under_work" (Exited 1 "boom" ""))
                    0 (task_42 "under_work") fs_with_lease
      = Some (s', log)
      /\ s' (lock_file (persistence (runner_a1 "backend_dev"))) = Absent
      /\ (exists m, In (UiExecutionError m) log)
      /\ In (PostTaskHook (t_id (task_42 "under_work")) false) log
      /\ (forall c, ~ In (OperatorPrompt c) log).
Proof.
  split; [reflexivity|].
  exact (failed_llm_step_releases_lease (runner_a1 "backend_dev")
           (quiet_world "under_work" (Exited 1 "boom" ""))
           (task_42 "under_work") fs_with_lease "team_roles/role.md" 0
           eq_refl eq_refl eq_refl eq_refl).
Defined.

(** The same run, evaluated: what the runner shows and what is left of the
    lease. *)
Example failed_run_log :
  option_map snd
    (_execute_task 1 (runner_a1 "backend_dev")
                   (quiet_world "under_work" (Exited 1 "boom" ""))
                   0 (task_42 "under_work") fs_with_lease)
  = Some [PmLockTask 42; UiSuccess "Task locked in PM system";
          UiExecutionError (ExitedWithCode 1 "boom");
          PostTaskHook 42 false; UiSuccess "Task completed"].
Proof. reflexivity. Qed.

(** ** Recovery of a lease at start *)

Lemma get_locked_task_own self s d :
  s (lock_file self) = Holds d -> agent_id d = Some (self_agent_id self) ->
  get_locked_task self s = (Some d, s).
Proof.
  intros Hs Hag. unfold get_locked_task, get_locked_task_ops.
  rewrite Hs, Hag. unfold opt_string_eqb. rewrite String.eqb_refl. reflexivity.
Qed.

(** C3, as the code has it.  When the lease file holds a task of this agent,
    the runner asks the PM service for that task.  If the answer has status
    [completed] or [cancelled], or if the query fails, the lease is released
    and the turn goes on to poll for new work.  For every other status the
    lease is kept and the turn executes the task as the PM service returned
    it. *)
Theorem recovery_resumes_unless_completed_or_cancelled self w s d task :
  s (lock_file (persistence self)) = Holds d ->
  agent_id d = Some (runner_agent_id self) ->
  task_data d = Some task ->
  let recovered := _recover_locked_task self w s in
  let polled := match client_get_next_task w with
                | Some t => Fresh t
                | None => Idle
                end in
  In (PmGetTask (t_id task)) (snd recovered)
  /\ match client_get_task w (t_id task) with
     | Some current_task =>
         if String.eqb (t_status current_task) "completed"
            || String.eqb (t_status current_task) "cancelled"
         then fst (fst recovered) = None
              /\ snd (fst recovered) (lock_file (persistence self)) = Absent
              /\ fst (fst (session_plan self w s)) = polled
         else fst (fst recovered) = Some current_task
              /\ snd (fst recovered) (lock_file (persistence self)) = Holds d
              /\ fst (fst (session_plan self w s)) = Resume current_task
     | None =>
         fst (fst recovered) = None
         /\ snd (fst recovered) (lock_file (persistence self)) = Absent
         /\ fst (fst (session_plan self w s)) = polled
     end.
Proof.
  intros Hs Hag Htask recovered polled. subst recovered polled.
  unfold session_plan, _recover_locked_task.
  rewrite (get_locked_task_own (persistence self) s d Hs Hag), Htask.
  destruct (client_get_task w (t_id task)) as [cur|].
  - destruct (String.eqb (t_status cur) "completed" || String.eqb (t_status cur) "cancelled").
    + cbn [fst snd]. split; [simpl; auto|]. split; [reflexivity|].
      split; [apply release_lock_absent|].
      destruct (client_get_next_task w); reflexivity.
    + cbn [fst snd]. split; [simpl; auto|]. repeat split. exact Hs.
  - cbn [fst snd]. split; [simpl; auto|]. split; [reflexivity|].
    split; [apply release_lock_absent|].
    destruct (client_get_next_task w); reflexivity.
Qed.

Lemma recovery_resumes_unless_completed_or_cancelled_witness :
  fst (fst (_recover_locked_task (runner_a1 "qa") (quiet_world "completed" TimeoutExpired)
                                 fs_with_lease)) = None
  /\ snd (fst (_recover_locked_task (runner_a1 "qa") (quiet_world "completed" TimeoutExpired)
                                    fs_with_lease))
         (lock_file (persistence (runner_a1 "qa"))) = Absent.
Proof.
  pose proof (recovery_resumes_unless_completed_or_cancelled (runner_a1 "qa")
                (quiet_world "completed" TimeoutExpired) fs_with_lease lease_42
                (task_42 "under_work") eq_refl eq_refl eq_refl) as H.
  cbv zeta in H. destruct H as [_ H].
  change (client_get_task (quiet_world "completed" TimeoutExpired)
                          (t_id (task_42 "under_work")))
    with (Some (task_42 "completed")) in H.
  change ((t_status (task_42 "completed") =? "completed")%string
          || (t_status (task_42 "completed") =? "cancelled")%string) with true in H.
  cbv iota in H. destruct H as (H1 & H2 & _). split; assumption.
Defined.

(** The claim of C3 as written fails for a status downstream of what the role
    produces: a backend developer produces [dev_done], the PM service reports
    the leased task 42 as [qa_done], and the runner keeps the lease and
    resumes the task instead of releasing it. *)
Lemma downstream_status_is_not_terminal_for_recovery :
  spec_terminal_for_role (runner_a1 "backend_dev") "qa_done" = true
  /\ fs_with_lease (lock_file (persistence (runner_a1 "backend_dev"))) = Holds lease_42
  /\ fst (fst (_recover_locked_task (runner_a1 "backend_dev")
                 (quiet_world "qa_done" TimeoutExpired) fs_with_lease))
     = Some (task_42 "qa_done")
  /\ snd (fst (_recover_locked_task (runner_a1 "backend_dev")
                 (quiet_world "qa_done" TimeoutExpired) fs_with_lease))
         (lock_file (persistence (runner_a1 "backend_dev")))
     = Holds lease_42
  /\ fst (fst (session_plan (runner_a1 "backend_dev")
                 (quiet_world "qa_done" TimeoutExpired) fs_with_lease))
     = Resume (task_42 "qa_done").
Proof.
  repeat split.
Qed.

(** ** The startup rate limiter *)


Lemma filter_gt_gt (x y : Q) (l : list Q) :
  (y <= x)%Q ->
  filter (fun t => Qgtb t x) (filter (fun t => Qgtb t y) l) = filter (fun t => Qgtb t x) l.
Proof.
  intros Hxy. induction l as [|a l IH]; simpl; [reflexivity|].
  destruct (Qgtb a y) eqn:Ey; simpl.
  - rewrite IH. reflexivity.
  - rewrite IH. destruct (Qgtb a x) eqn:Ex; [|reflexivity].
    apply Qgtb_true in Ex. apply Qgtb_false in Ey. exfalso. lra.
Qed.

Lemma recent_pruned now l : recent now (pruned now l) = recent now l.
Proof. unfold recent, pruned. apply filter_gt_gt. lra. Qed.

Lemma attempts_of_set_limits port rd limits data b :
  attempts_of port
    (set_blocked_port b (set_rate_limits (Some (set port rd limits)) data))
  = attempts rd.
Proof.
  unfold attempts_of. cbn [rate_limits set_blocked_port set_rate_limits].
  rewrite get_set_same. reflexivity.
Qed.

(** What one check answers and records. *)
Lemma check_startup_spec now port f :
  let blocked := (3 <=? List.length (recent now (file_attempts port f)))%nat in
  fst (_check_startup_rate_limit now port f) = negb blocked
  /\ file_attempts port (snd (_check_startup_rate_limit now port f))
     = if blocked then pruned now (file_attempts port f)
       else pruned now (file_attempts port f) ++ [now].
Proof.
  intros blocked. subst blocked.
  rewrite <- (recent_pruned now (file_attempts port f)).
  unfold _check_startup_rate_limit, atomic_json_update.
  assert (E : file_attempts port f = attempts_of port (_read_json_safe f empty_doc)).
  { destruct f; reflexivity. }
  rewrite E. generalize (_read_json_safe f empty_doc). intros data.
  unfold update_and_check_rate_limit.
  assert (Est : attempts_of port data
                = match get port (match rate_limits data with Some l => l | None => [] end) with
                  | Some rd => attempts rd
                  | None => []
                  end).
  { unfold attempts_of. destruct (rate_limits data); reflexivity. }
  rewrite Est. clear Est E.
  generalize (match rate_limits data with Some l => l | None => [] end). intros limits.
  unfold recent, pruned.
  destruct (get port limits) as [rd|] eqn:G.
  - destruct (3 <=? _)%nat.
    + cbn [rate_limit_blocked_port set_blocked_port opt_Z_eqb].
      rewrite Z.eqb_refl. cbn [fst snd negb file_attempts].
      split; [reflexivity|]. apply attempts_of_set_limits.
    + cbn [rate_limit_blocked_port set_blocked_port opt_Z_eqb fst snd negb file_attempts].
      split; [reflexivity|].
      cbn [set_rate_limits rate_limits set_blocked_port].
      exact (attempts_of_set_limits _ _ _ _ _).
  - cbn [filter List.length Nat.leb].
    cbn [rate_limit_blocked_port set_blocked_port opt_Z_eqb fst snd negb file_attempts].
    split; [reflexivity|].
    cbn [set_rate_limits rate_limits set_blocked_port].
    exact (attempts_of_set_limits _ _ _ _ _).
Qed.

Lemma nondecreasing_from_le prev prev' l :
  (prev' <= prev)%Q -> nondecreasing_from prev l -> nondecreasing_from prev' l.
Proof.
  destruct l as [|t r]; simpl; [auto|]. intros H [H1 H2]. split; [lra|exact H2].
Qed.





(** Scenario S4 of the spec, evaluated: three startups within 2 s pass, the
    fourth within the window is refused, and a fifth one 5 s after the second
    passes again. *)
Example rate_limit_trip :
  fst (run_checks 6969 [1000; 1001; 1002; 1003; 1006]%Q None)
  = [true; true; true; false; true].
Proof. reflexivity. Qed.

(** * Further properties *)

(** ** The path of the registry file *)

Lemma string_length_append (a b : string) :
  String.length (a ++ b)%string = (String.length a + String.length b)%nat.
Proof.
  induction a as [|c a IH]; simpl; [reflexivity|]. rewrite IH. reflexivity.
Qed.

Lemma string_append_cancel_l (s a b : string) :
  (s ++ a)%string = (s ++ b)%string -> a = b.
Proof.
  induction s as [|c s IH]; simpl; [auto|]. intros [= H]. auto.
Qed.

Lemma string_append_cancel_r (s : string) : forall a b : string,
  (a ++ s)%string = (b ++ s)%string -> a = b.
Proof.
  induction a as [|c a IH]; intros [|d b] H; simpl in H.
  - reflexivity.
  - exfalso. apply (f_equal String.length) in H. simpl in H.
    rewrite string_length_append in H. lia.
  - exfalso. apply (f_equal String.length) in H. simpl in H.
    rewrite string_length_append in H. lia.
  - injection H as -> H. f_equal. apply IH, H.
Qed.

(** X1.  The API server's [get_process_registry_path()] (called without a
    port) and the MCP supervisor's [_get_mcp_coordination_file()] name the
    same file, an unset [SERVICE_PORT] counts as 6969, and two values of
    [SERVICE_PORT] name the same file only if they are the same string. *)
Theorem registry_path_is_shared_per_port tempdir :
  (forall SERVICE_PORT,
      get_process_registry_path tempdir SERVICE_PORT None
      = _get_mcp_coordination_file tempdir SERVICE_PORT)
  /\ _get_mcp_coordination_file tempdir None
     = _get_mcp_coordination_file tempdir (Some "6969")
  /\ (forall p1 p2,
        _get_mcp_coordination_file tempdir (Some p1)
        = _get_mcp_coordination_file tempdir (Some p2)
        <-> p1 = p2).
Proof.
  split; [|split].
  - reflexivity.
  - reflexivity.
  - intros p1 p2. split; [|intros ->; reflexivity].
    unfold _get_mcp_coordination_file, path_join, env_get. intros H.
    apply string_append_cancel_l in H. apply string_append_cancel_l in H.
    apply string_append_cancel_l in H. apply string_append_cancel_r in H. exact H.
Qed.

(** ** The port allocator *)

Lemma first_free_port_spec free n : forall port,
  match first_free_port free port n with
  | Some p => port <= p < port + Z.of_nat n /\ free p = true
              /\ (forall q, port <= q < p -> free q = false)
  | None => forall q, port <= q < port + Z.of_nat n -> free q = false
  end.
Proof.
  induction n as [|n IH]; intros port; cbn [first_free_port].
  - intros q Hq. lia.
  - destruct (free port) eqn:F.
    + split; [lia|]. split; [exact F|]. intros q Hq. lia.
    + specialize (IH (port + 1)).
      destruct (first_free_port free (port + 1) n) as [p|].
      * destruct IH as (Hr & Hf & Hmin). split; [lia|]. split; [exact Hf|].
        intros q Hq. destruct (Z.eq_dec q port) as [->|Hne]; [exact F|].
        apply Hmin. lia.
      * intros q Hq. destruct (Z.eq_dec q port) as [->|Hne]; [exact F|].
        apply IH. lia.
Qed.

(** X2.  When the 50 ports from the requested one on are port numbers (so
    that [bind] answers or raises [OSError] on each), [get_port] answers a
    port within 50 of the port it was asked for (the integer value of the
    override variable, else the default port moved by the instance hash); the
    answer is the lowest port of that range on which [bind] succeeds, and it
    is an occupied port only when the whole range is occupied, in which case
    it is the requested port itself. *)
Theorem get_port_is_lowest_free_within_50 free default_port instance_hash env_value :
  let requested := requested_port default_port instance_hash env_value in
  let port := get_port free default_port instance_hash env_value in
  0 <= requested -> requested + 50 <= 65536 ->
  requested <= port < requested + 50
  /\ (forall q, requested <= q < port -> free q = false)
  /\ (free port = true
      \/ (port = requested /\ forall q, requested <= q < requested + 50 -> free q = false)).
Proof.
  intros requested port _ _.
  assert (H : forall r,
             let p := if is_port_available free r then r
                      else find_available_port free r 50 in
             r <= p < r + 50
             /\ (forall q, r <= q < p -> free q = false)
             /\ (free p = true
                 \/ (p = r /\ forall q, r <= q < r + 50 -> free q = false))).
  { intros r. unfold is_port_available, find_available_port. cbv zeta.
    destruct (free r) eqn:F.
    - split; [lia|]. split; [intros q Hq; lia|]. left. exact F.
    - pose proof (first_free_port_spec free 50 r) as S.
      destruct (first_free_port free r 50) as [p|].
      + destruct S as (Hr & Hf & Hmin). change (Z.of_nat 50) with 50 in Hr.
        split; [lia|]. split; [exact Hmin|]. left. exact Hf.
      + change (Z.of_nat 50) with 50 in S.
        split; [lia|]. split; [intros q Hq; lia|]. right. split; [reflexivity|exact S]. }
  subst requested port. unfold get_port, requested_port.
  destruct env_value as [[env_port|]|]; apply H.
Qed.

Lemma get_port_is_lowest_free_within_50_witness :
  6969 <= get_port (fun p => negb (p =? 6969)) 6969 None None < 6969 + 50.
Proof.
  refine (proj1 (get_port_is_lowest_free_within_50
                   (fun p => negb (p =? 6969)) 6969 None None _ _));
    cbn; lia.
Defined.

(** ** The LLM subprocess *)

(** X3.  [execute_task] reports success exactly when the working directory
    exists, the instructions file can be read and the subprocess exits with
    code 0; in that case the message is the success message, and every other
    outcome comes back as a failure pair, never as an exception. *)
Theorem execute_task_succeeds_iff_exit_zero worktree_exists instructions_ok run timeout :
  (fst (execute_task worktree_exists instructions_ok run timeout) = true
   <-> worktree_exists = true /\ instructions_ok = true
       /\ exists stderr stdout, run = Exited 0 stderr stdout)
  /\ (fst (execute_task worktree_exists instructions_ok run timeout) = true ->
      snd (execute_task worktree_exists instructions_ok run timeout) = CompletedSuccessfully)
  /\ (worktree_exists = true -> instructions_ok = true ->
      fst (execute_task worktree_exists instructions_ok run timeout)
      = negb (llm_step_failed run)).
Proof.
  unfold execute_task.
  destruct worktree_exists, instructions_ok; cbn [negb];
    try (split; [split; [discriminate|intros (H1 & H2 & _); discriminate]
                |split; [discriminate|intros; discriminate]]).
  destruct run as [rc e o| | |]; cbn [fst snd llm_step_failed negb].
  - destruct (rc =? 0) eqn:E; cbn [fst snd negb].
    + apply Z.eqb_eq in E. subst rc. repeat split; eauto.
    + split; [split; [discriminate|]|split; [discriminate|reflexivity]].
      intros (_ & _ & e' & o' & [= -> _ _]). discriminate E.
  - split; [split; [discriminate|intros (_ & _ & e' & o' & H); discriminate H]
           |split; [discriminate|reflexivity]].
  - split; [split; [discriminate|intros (_ & _ & e' & o' & H); discriminate H]
           |split; [discriminate|reflexivity]].
  - split; [split; [discriminate|intros (_ & _ & e' & o' & H); discriminate H]
           |split; [discriminate|reflexivity]].
Qed.

(** X4.  Only the skill level [principal], in any letter case, selects the
    Opus model; every other skill level, known or not, selects Sonnet, so the
    model handed to the subprocess always has a known display name. *)
Theorem model_is_opus_only_for_principal skill_level :
  (is_opus_task skill_level = true <-> lower skill_level = "principal")
  /\ (is_opus_task skill_level = false -> get_model skill_level = SONNET_MODEL)
  /\ get_model_name (get_model skill_level) <> "Unknown Model"
  /\ get_model (lower skill_level) = get_model skill_level.
Proof.
  assert (Hidem : forall s, lower (lower s) = lower s).
  { induction s as [|c s IH]; simpl; [reflexivity|]. rewrite IH. f_equal.
    unfold lower_char.
    destruct ((65 <=? Ascii.nat_of_ascii c)%nat && (Ascii.nat_of_ascii c <=? 90)%nat) eqn:E.
    - apply andb_prop in E. destruct E as [E1 E2].
      apply Nat.leb_le in E1, E2.
      rewrite Ascii.nat_ascii_embedding by lia.
      replace ((Ascii.nat_of_ascii c + 32 <=? 90)%nat) with false
        by (symmetry; apply Nat.leb_gt; lia).
      rewrite andb_false_r. reflexivity.
    - rewrite E. reflexivity. }
  unfold is_opus_task, get_model. rewrite Hidem.
  destruct (String.eqb (lower skill_level) "junior") eqn:E1.
  { apply String.eqb_eq in E1. rewrite E1.
    repeat split; try discriminate; try reflexivity. }
  destruct (String.eqb (lower skill_level) "senior") eqn:E2.
  { apply String.eqb_eq in E2. rewrite E2.
    repeat split; try discriminate; try reflexivity. }
  destruct (String.eqb (lower skill_level) "principal") eqn:E3.
  { apply String.eqb_eq in E3. rewrite E3.
    repeat split; try discriminate; try reflexivity. }
  apply String.eqb_neq in E3.
  repeat split; try discriminate; try reflexivity. intros H. contradiction.
Qed.

(** ** Hooks *)

(** X5.  A pre-task hook lets the task proceed exactly when no hook script is
    installed or the script exits with code 0; a missing health-check script
    likewise counts as healthy.  A script that times out, cannot be started
    or exits non-zero blocks the task. *)
Theorem pre_task_hook_blocks_only_on_failure script_found run :
  (fst (run_pre_task_hook script_found run) = true
   <-> script_found = false \/ exists stderr stdout, run = HookExited 0 stderr stdout)
  /\ fst (run_health_check script_found run) = fst (run_pre_task_hook script_found run)
  /\ (fst (run_pre_task_hook script_found run) = true ->
      snd (run_pre_task_hook script_found run) = PreTaskChecksPassed).
Proof.
  unfold run_pre_task_hook, run_health_check, _execute_hook.
  destruct script_found; cbn [negb fst snd].
  - destruct run as [rc e o| |]; cbn [negb fst snd].
    + destruct (rc =? 0) eqn:E; cbn [negb fst snd].
      * apply Z.eqb_eq in E. subst rc. repeat split; eauto.
      * assert (Hno : ~ (true = false \/ exists e' o', HookExited rc e o = HookExited 0 e' o')).
        { intros [H|(e' & o' & [= -> _ _])]; discriminate. }
        destruct (negb (String.eqb e "")); [|destruct (negb (String.eqb o ""))];
          cbn [negb fst snd];
          (split; [split; [discriminate|intros H; exfalso; exact (Hno H)]
                  |split; [reflexivity|discriminate]]).
    + split; [split; [discriminate|intros [H|(e' & o' & H)]; discriminate]
             |split; [reflexivity|discriminate]].
    + split; [split; [discriminate|intros [H|(e' & o' & H)]; discriminate]
             |split; [reflexivity|discriminate]].
  - repeat split; auto.
Qed.

(** ** Registration of the API server *)

Lemma pop_set_absent {V : Type} (d : dict V) k v :
  get k d = None -> pop k (set k v d) = d.
Proof.
  unfold pop. induction d as [|[k0 v0] r IH]; simpl.
  - intros _. rewrite Z.eqb_refl. reflexivity.
  - destruct (k =? k0) eqn:E; [discriminate|]. intros H.
    simpl. rewrite E. simpl. rewrite (IH H). reflexivity.
Qed.

Lemma migrate_result_is_flat env data :
  fully_migrated (migrate_legacy_structure env data) = true.
Proof.
  unfold migrate_legacy_structure.
  destruct (fully_migrated data) eqn:E; [exact E|reflexivity].
Qed.

Lemma migrate_flat_procs env data :
  legacy_shape data = false ->
  procs (migrate_legacy_structure env data) = procs data.
Proof.
  unfold legacy_shape, migrate_legacy_structure, fully_migrated. intros H.
  apply orb_false_iff in H. destruct H as [Ha Hc]. rewrite Ha, Hc.
  destruct (processes data) eqn:Ep; [reflexivity|].
  cbn [negb andb]. unfold procs at 1. cbn [processes].
  assert (El : legacy_clients data = []).
  { unfold legacy_clients. destruct (clients data) as [[|c l]|]; try reflexivity.
    discriminate Hc. }
  rewrite El. cbn [fold_left].
  destruct (api_pid data) as [p|]; [|reflexivity].
  rewrite Ha. reflexivity.
Qed.

Lemma no_conflict_when_absent data pid ty :
  legacy_shape data = false -> 0 < pid -> get pid (procs data) = None ->
  check_pid_conflict data pid ty = false.
Proof.
  unfold legacy_shape, check_pid_conflict. intros H Hpos Hget.
  apply orb_false_iff in H. destruct H as [Ha Hc].
  assert (E1 : existsb (fun kv => (fst kv =? pid) && negb (has_type ty (snd kv)))
                       (procs data) = false).
  { apply not_true_is_false. intros E. apply existsb_exists in E.
    destruct E as ([k v] & Hin & Hk). simpl in Hk.
    apply andb_prop in Hk. destruct Hk as [Hk _]. apply Z.eqb_eq in Hk. subst k.
    apply get_None_keys in Hget. apply Hget.
    change pid with (fst (pid, v)). apply in_map, Hin. }
  rewrite E1.
  assert (E2 : opt_Z_eqb (api_pid data) (Some pid) = false).
  { destruct (api_pid data) as [p|]; [|reflexivity]. simpl in *.
    apply negb_false_iff, Z.eqb_eq in Ha. subst p.
    apply Z.eqb_neq. lia. }
  rewrite E2. cbn [andb].
  assert (El : legacy_clients data = []).
  { unfold legacy_clients. destruct (clients data) as [[|c l]|]; try reflexivity.
    discriminate Hc. }
  rewrite El. reflexivity.
Qed.

(** X6.  With the registry helpers imported, [register_api_server] answers
    [False] and leaves the file untouched exactly when [check_pid_conflict]
    finds the caller's PID under another type; otherwise it answers [True]
    and the file holds a document in which the caller's PID is an
    [api_server] entry stamped with the current time and [primary_api] is the
    caller's PID.  On a document without legacy data no other entry
    changes. *)
Theorem register_api_server_succeeds_iff_no_conflict env f :
  let data := _read_json_safe f empty_doc in
  if check_pid_conflict data (getpid env) "api_server"
  then register_api_server imported env f = (false, f)
  else exists written,
      register_api_server imported env f = (true, Some written)
      /\ get (getpid env) (procs written) = Some (api_entry env)
      /\ primary_api written = Some (getpid env)
      /\ (legacy_shape data = false ->
          forall pid, pid <> getpid env ->
                      get pid (procs written) = get pid (procs data)).
Proof.
  intros data. unfold register_api_server, atomic_json_update, register_api_pid.
  fold data. cbn [imported AtomicFileOperations negb].
  destruct (check_pid_conflict data (getpid env) "api_server"); [reflexivity|].
  eexists. split; [reflexivity|].
  unfold procs at 1. cbn [processes primary_api set_primary_api set_processes].
  split; [apply get_set_same|]. split; [reflexivity|].
  intros Hflat pid Hne. unfold procs at 1.
  cbn [processes primary_api set_primary_api set_processes].
  rewrite get_set_other by exact Hne.
  rewrite migrate_flat_procs.
  - destruct (processes data) eqn:Ep; [reflexivity|].
    unfold procs. rewrite Ep. reflexivity.
  - destruct (processes data); exact Hflat.
Qed.

(** X7.  Registering the API server in a document without legacy data in
    which its PID is absent, and then applying the unregistration update,
    gives back the [processes] mapping the document had; [primary_api] then
    names the first API server left in it, or is null. *)
Theorem register_then_unregister_api_restores_processes env data :
  legacy_shape data = false ->
  0 < getpid env ->
  get (getpid env) (procs data) = None ->
  exists registered,
    register_api_pid env data = Return registered
    /\ procs (unregister_api_pid env registered) = procs data
    /\ primary_api (unregister_api_pid env registered) = first_api_server (procs data).
Proof.
  intros Hflat Hpos Habs. unfold register_api_pid.
  rewrite (no_conflict_when_absent _ _ _ Hflat Hpos Habs).
  eexists. split; [reflexivity|].
  set (d0 := match processes data with
             | Some _ => data
             | None => set_processes (Some []) data
             end).
  assert (Hflat0 : legacy_shape d0 = false) by (subst d0; destruct (processes data); exact Hflat).
  assert (Hp0 : procs d0 = procs data).
  { subst d0. destruct (processes data) eqn:Ep; [reflexivity|].
    unfold procs. rewrite Ep. reflexivity. }
  assert (Hm : migrate_legacy_structure env d0 = d0).
  { unfold migrate_legacy_structure. rewrite fully_migrated_of_flat; [reflexivity| |exact Hflat0].
    subst d0. destruct (processes data) eqn:Ep; [congruence|discriminate]. }
  rewrite Hm, Hp0.
  set (reg := set_primary_api (Some (getpid env))
                (set_processes (Some (set (getpid env) (api_entry env) (procs data))) d0)).
  assert (Hmr : migrate_legacy_structure env reg = reg).
  { unfold migrate_legacy_structure. rewrite fully_migrated_of_flat; [reflexivity|discriminate|].
    exact Hflat0. }
  unfold unregister_api_pid. rewrite Hmr.
  assert (Hpr : procs reg = set (getpid env) (api_entry env) (procs data)) by reflexivity.
  rewrite Hpr, get_set_same. cbn [has_type api_entry p_type opt_string_eqb].
  rewrite String.eqb_refl.
  assert (Hprim : opt_Z_eqb (primary_api reg) (Some (getpid env)) = true).
  { simpl. apply Z.eqb_refl. }
  rewrite Hprim, (pop_set_absent _ _ _ Habs). split; reflexivity.
Qed.

Lemma register_then_unregister_api_restores_processes_witness :
  exists registered,
    register_api_pid (host 100 [100; 200]) (flat_doc [(200, mcp_info "mcp_200_1")] None)
    = Return registered
    /\ procs (unregister_api_pid (host 100 [100; 200]) registered)
       = [(200, mcp_info "mcp_200_1")].
Proof.
  destruct (register_then_unregister_api_restores_processes (host 100 [100; 200])
              (flat_doc [(200, mcp_info "mcp_200_1")] None) eq_refl eq_refl eq_refl)
    as (registered & H1 & H2 & _).
  exists registered. split; assumption.
Defined.

(** X8.  Migration is idempotent, whatever the host says the second time:
    its result always has a [processes] mapping and no legacy data, and a
    second migration returns it unchanged. *)
Theorem migration_is_idempotent env env' data :
  migrate_legacy_structure env' (migrate_legacy_structure env data)
  = migrate_legacy_structure env data
  /\ legacy_shape (migrate_legacy_structure env data) = false
  /\ processes (migrate_legacy_structure env data) <> None.
Proof.
  pose proof (migrate_result_is_flat env data) as H.
  split; [|split].
  - unfold migrate_legacy_structure at 1. rewrite H. reflexivity.
  - unfold fully_migrated in H. unfold legacy_shape.
    destruct (processes (migrate_legacy_structure env data)); [|discriminate].
    apply andb_prop in H. destruct H as [H1 H2].
    apply negb_true_iff in H1, H2. rewrite H1, H2. reflexivity.
  - unfold fully_migrated in H.
    destruct (processes (migrate_legacy_structure env data)); [discriminate|discriminate H].
Qed.

(** ** The two pruning passes *)

(** X9.  The pruning pass of [process_registry.py] keeps exactly the entries
    whose PID psutil reports alive and stamps their heartbeat; without
    psutil it empties the mapping.  The pruning pass of [server.py] keeps the
    same entries, unstamped, but without psutil it keeps every entry. *)
Theorem pruning_keeps_exactly_live_entries env data pid :
  let migrated := migrate_legacy_structure env data in
  get pid (procs (cleanup_stale_processes env data))
  = (if HAS_PSUTIL env && pid_exists env pid
     then option_map (touch env) (get pid (procs migrated))
     else None)
  /\ get pid (procs (clean_stale_pids env data))
     = (if HAS_PSUTIL env
        then if pid_exists env pid then get pid (procs migrated) else None
        else get pid (procs migrated)).
Proof.
  intros migrated. split.
  - unfold cleanup_stale_processes. fold migrated.
    unfold procs at 1. cbn [processes set_processes].
    rewrite get_map_touch.
    rewrite (get_filter_key (procs migrated)
               (fun k => HAS_PSUTIL env && pid_exists env k) pid).
    destruct (HAS_PSUTIL env && pid_exists env pid); reflexivity.
  - unfold clean_stale_pids. fold migrated.
    set (d1 := match api_pid migrated with
               | Some p => if truthy_int (Some p) && HAS_PSUTIL env && negb (pid_exists env p)
                           then set_api_pid None migrated else migrated
               | None => migrated
               end).
    assert (Hp : processes d1 = processes migrated).
    { subst d1. destruct (api_pid migrated) as [p|]; [|reflexivity].
      destruct (_ && _); reflexivity. }
    assert (Hpp : procs d1 = procs migrated) by (unfold procs; rewrite Hp; reflexivity).
    destruct (processes d1) as [ps|] eqn:E.
    + destruct (HAS_PSUTIL env); [|rewrite Hpp; reflexivity].
      unfold procs at 1. cbn [processes set_processes].
      rewrite (get_filter_key ps (pid_exists env) pid).
      rewrite <- Hpp. unfold procs. rewrite E. reflexivity.
    + assert (Hnil : procs migrated = []).
      { rewrite <- Hpp. unfold procs. rewrite E. reflexivity. }
      rewrite Hpp, Hnil.
      destruct (HAS_PSUTIL env); [destruct (pid_exists env pid)|]; reflexivity.
Qed.

(** X10.  The cleanup pass answers [True] and removes the registry file for
    every file and every host, live processes or not; the startup attempts
    recorded in the file go with it, so the next startup check on any port
    is accepted. *)
Theorem cleanup_pass_always_removes_the_file env f :
  cleanup_process_registry imported env f = (true, None)
  /\ forall now port,
      fst (_check_startup_rate_limit now port
             (snd (cleanup_process_registry imported env f))) = true.
Proof.
  rewrite cleanup_process_registry_always_unlinks. split; [reflexivity|].
  intros now port. reflexivity.
Qed.

(** X11.  Registration of an API server, the API unregistration update,
    migration, the registration of an MCP client and the pruning pass of
    [process_registry.py] all keep [primary_api] valid: in a document with
    one entry per PID whose [primary_api] is null or names an [api_server]
    entry, the same holds after the update. *)
Theorem updates_keep_primary_api_valid env data :
  one_entry_per_pid data ->
  primary_api_valid data ->
  (forall registered, register_api_pid env data = Return registered ->
                      primary_api_valid registered)
  /\ primary_api_valid (unregister_api_pid env data)
  /\ primary_api_valid (migrate_legacy_structure env data)
  /\ (forall self, primary_api_valid (add_client self env data))
  /\ (primary_api (migrate_legacy_structure env data) <> Some 0 ->
      primary_api_valid (cleanup_stale_processes env data)).
Proof.
  intros Hwf Hprim. split; [|split; [|split; [|split]]].
  - intros registered H. exact (register_api_pid_primary env data registered H).
  - apply unregister_api_pid_primary; assumption.
  - apply migrate_primary; assumption.
  - intros self. apply add_client_primary; assumption.
  - intros Hnz. apply cleanup_stale_processes_primary; assumption.
Qed.

Lemma updates_keep_primary_api_valid_witness :
  primary_api_valid (unregister_api_pid (host 100 [100; 200]) doc_api_and_client)
  /\ primary_api_valid (cleanup_stale_processes (host 200 [200]) doc_api_and_client).
Proof.
  assert (Hwf : one_entry_per_pid doc_api_and_client).
  { repeat constructor; simpl; intuition discriminate. }
  assert (Hprim : primary_api_valid doc_api_and_client).
  { exists api_info. split; reflexivity. }
  split.
  - exact (proj1 (proj2 (updates_keep_primary_api_valid (host 100 [100; 200])
                           doc_api_and_client Hwf Hprim))).
  - apply (proj2 (proj2 (proj2 (proj2
             (updates_keep_primary_api_valid (host 200 [200]) doc_api_and_client
                                             Hwf Hprim))))).
    discriminate.
Defined.

(** ** Registration and unregistration of an MCP client *)

(** X12.  [_register_mcp_client] tells its caller to start the API exactly
    when the document it has just written holds no [api_server] entry; the
    number of MCP clients plays no part in the answer. *)
Theorem should_start_iff_no_api_server_registered self env f :
  fst (_register_mcp_client self env f)
  = (count_type "api_server"
       (procs (add_client self env (_read_json_safe f clients_default))) =? 0)%nat.
Proof.
  unfold _register_mcp_client, atomic_json_update. cbn [fst].
  destruct (count_type "api_server" _ =? 0)%nat.
  - apply orb_true_r.
  - rewrite andb_false_r. reflexivity.
Qed.

(** X13.  On a registry without legacy data in which the client's PID is
    absent (in particular on no registry at all), registering an MCP client
    and then unregistering it restores the [processes] mapping: afterwards
    the file either holds a document with the mapping it had before, or has
    been removed, which happens exactly when no other MCP client is
    registered and this client started the API. *)
Theorem mcp_register_then_unregister_restores_processes self env f :
  let data := _read_json_safe f clients_default in
  legacy_shape data = false ->
  0 < getpid env ->
  get (getpid env) (procs data) = None ->
  let after := snd (_unregister_mcp_client self env
                      (snd (_register_mcp_client self env f))) in
  if (count_type "mcp_client" (procs data) =? 0)%nat && _we_started_api self
  then after = None
  else exists written, after = Some written /\ procs written = procs data.
Proof.
  intros data Hflat Hpos Habs after. subst after.
  unfold _register_mcp_client, atomic_json_update. fold data. cbn [snd].
  destruct (migration_is_idempotent env env data) as (Hidem & Hflat' & Hp').
  assert (Hpm : procs (migrate_legacy_structure env data) = procs data)
    by (apply migrate_flat_procs, Hflat).
  assert (Eadd : add_client self env data
                 = set_processes (Some (set (getpid env) (client_entry self env) (procs data)))
                                 (migrate_legacy_structure env data)).
  { unfold add_client. rewrite no_conflict_when_absent; try assumption.
    - rewrite Hpm. reflexivity.
    - rewrite Hpm. exact Habs. }
  rewrite Eadd.
  set (m := migrate_legacy_structure env data) in *.
  set (reg := set_processes (Some (set (getpid env) (client_entry self env) (procs data))) m).
  assert (Hmr : migrate_legacy_structure env reg = reg).
  { unfold migrate_legacy_structure. rewrite fully_migrated_of_flat; [reflexivity|discriminate|].
    exact Hflat'. }
  assert (Erem : procs (remove_client self env reg) = procs data).
  { unfold remove_client. rewrite Hmr.
    assert (Hpr : procs reg = set (getpid env) (client_entry self env) (procs data))
      by reflexivity.
    rewrite Hpr, get_set_same.
    cbn [client_entry p_client_id opt_string_eqb]. rewrite String.eqb_refl.
    unfold procs at 1. cbn [processes set_processes].
    apply pop_set_absent, Habs. }
  unfold _unregister_mcp_client, with_coordination_lock, coordinated_unregister,
    atomic_json_update.
  cbn [_read_json_safe]. rewrite Erem.
  destruct ((count_type "mcp_client" (procs data) =? 0)%nat && _we_started_api self).
  - reflexivity.
  - eexists. split; [reflexivity|exact Erem].
Qed.

Lemma mcp_register_then_unregister_restores_processes_witness :
  snd (_unregister_mcp_client (mcp_server "mcp_200_1" true) (host 200 [200])
         (snd (_register_mcp_client (mcp_server "mcp_200_1" true) (host 200 [200]) None)))
  = None.
Proof.
  exact (mcp_register_then_unregister_restores_processes
           (mcp_server "mcp_200_1" true) (host 200 [200]) None
           eq_refl eq_refl eq_refl).
Defined.

(** X14.  The unregistration update of an MCP client touches nothing but the
    caller's own entry: every entry under another PID, [primary_api], and an
    entry under the caller's PID that carries another client id (or none)
    are what migration left. *)
Theorem unregister_removes_only_own_client_entry self env data :
  let migrated := migrate_legacy_structure env data in
  (forall pid, pid <> getpid env ->
               get pid (procs (remove_client self env data)) = get pid (procs migrated))
  /\ primary_api (remove_client self env data) = primary_api migrated
  /\ (forall info,
        get (getpid env) (procs migrated) = Some info ->
        p_client_id info <> Some (_client_id self) ->
        get (getpid env) (procs (remove_client self env data)) = Some info)
  /\ (forall info,
        get (getpid env) (procs migrated) = Some info ->
        p_client_id info = Some (_client_id self) ->
        get (getpid env) (procs (remove_client self env data)) = None).
Proof.
  intros migrated. unfold remove_client. fold migrated.
  destruct (get (getpid env) (procs migrated)) as [own|] eqn:G.
  - destruct (opt_string_eqb (p_client_id own) (Some (_client_id self))) eqn:E.
    + split; [|split; [|split]].
      * intros pid Hne. unfold procs at 1. cbn [processes set_processes].
        rewrite get_pop. apply Z.eqb_neq in Hne. rewrite Hne. reflexivity.
      * reflexivity.
      * intros info [= <-] Hne. exfalso. apply Hne.
        unfold opt_string_eqb in E. destruct (p_client_id own) as [c|]; [|discriminate].
        apply String.eqb_eq in E. subst c. reflexivity.
      * intros info _ _. unfold procs at 1. cbn [processes set_processes].
        rewrite get_pop, Z.eqb_refl. reflexivity.
    + split; [|split; [|split]].
      * intros pid _. reflexivity.
      * reflexivity.
      * intros info [= <-] _. exact G.
      * intros info [= <-] Hc. rewrite Hc in E. simpl in E.
        rewrite String.eqb_refl in E. discriminate.
  - split; [|split; [|split]].
    + intros pid _. reflexivity.
    + reflexivity.
    + intros info H. discriminate H.
    + intros info H. discriminate H.
Qed.

(** ** Shutdown *)

(** X15.  Every signal [_perform_cleanup] sends goes to the recorded server
    PID, and only when this client started the API, no cleanup was already
    in progress, the unregistration said it was the last client, a process
    bears that PID and its command line mentions [uvicorn] or [src.main];
    [Kill] is only ever sent after [Terminate]. *)
Theorem cleanup_signals_only_the_owned_server self env table f sig :
  In sig (snd (_perform_cleanup self env table f)) ->
  exists pid proc,
    _api_server_pid self = Some pid
    /\ (sig = Terminate pid \/ sig = Kill pid)
    /\ In (Terminate pid) (snd (_perform_cleanup self env table f))
    /\ _we_started_api self = true
    /\ _cleanup_in_progress self = false
    /\ fst (_unregister_mcp_client self env f) = true
    /\ psutil_Process env table pid = Some proc
    /\ existsb (fun arg => contains "uvicorn" arg || contains "src.main" arg)
               (cmdline proc) = true.
Proof.
  unfold _perform_cleanup.
  destruct (_cleanup_in_progress self); [intros []|].
  destruct (_unregister_mcp_client self env f) as [should f']. cbn [fst snd].
  destruct should; cbn [negb]; [|intros []].
  destruct (_we_started_api self); cbn [negb]; [|intros []].
  destruct (_api_server_pid self) as [pid|]; [|intros []].
  destruct (truthy_int (Some pid)); [|intros []].
  unfold terminate_server.
  destruct (psutil_Process env table pid) as [proc|] eqn:Hproc; [|intros []].
  destruct (match _api_server_start_time self with
            | Some t0 => _
            | None => false
            end); [intros []|].
  destruct (existsb _ (cmdline proc)) eqn:E; cbn [negb]; [|intros []].
  intros H. exists pid, proc.
  destruct (stops_on_terminate proc); simpl in H |- *.
  - destruct H as [<-|[]]. repeat split; auto.
  - destruct H as [<-|[<-|[]]]; repeat split; auto.
Qed.

Lemma cleanup_signals_only_the_owned_server_witness :
  exists pid proc,
    _api_server_pid (owning_client 5000) = Some pid
    /\ psutil_Process (host 200 [100; 200]) (table_with_server 5000) pid = Some proc.
Proof.
  destruct (cleanup_signals_only_the_owned_server (owning_client 5000)
              (host 200 [100; 200]) (table_with_server 5000) (Some doc_api_and_client)
              (Terminate 100) (or_introl eq_refl))
    as (pid & proc & H1 & _ & _ & _ & _ & _ & H2 & _).
  exists pid, proc. split; assumption.
Defined.

(** X16.  [_perform_cleanup] is safe to call again: a call made while a
    cleanup is in progress changes nothing, and a call made after a finished
    cleanup finds the ownership flags cleared and sends no signal, whatever
    the registry and the process table then hold. *)
Theorem cleanup_twice_signals_once self env table f env' table' f' :
  (_cleanup_in_progress self = true ->
   _perform_cleanup self env table f = (self, f, []))
  /\ (_cleanup_in_progress self = false ->
      let after := fst (fst (_perform_cleanup self env table f)) in
      _we_started_api after = false
      /\ _api_server_pid after = None
      /\ _cleanup_in_progress after = false
      /\ snd (_perform_cleanup after env' table' f') = []).
Proof.
  split.
  - intros H. unfold _perform_cleanup. rewrite H. reflexivity.
  - intros H. cbv zeta.
    assert (Hafter : fst (fst (_perform_cleanup self env table f)) = reset self).
    { unfold _perform_cleanup. rewrite H.
      destruct (_unregister_mcp_client self env f) as [should f1]. reflexivity. }
    rewrite Hafter. repeat split.
    unfold _perform_cleanup. cbn [reset _cleanup_in_progress _we_started_api].
    destruct (_unregister_mcp_client _ env' f') as [should' f2].
    destruct should'; reflexivity.
Qed.

Lemma cleanup_twice_signals_once_witness :
  snd (_perform_cleanup
         (fst (fst (_perform_cleanup (owning_client 5000) (host 200 [100; 200])
                                     (table_with_server 5000) (Some doc_api_and_client))))
         (host 200 [100; 200]) (table_with_server 5000) (Some doc_api_and_client))
  = [].
Proof.
  exact (proj2 (proj2 (proj2 (proj2
           (cleanup_twice_signals_once (owning_client 5000) (host 200 [100; 200])
              (table_with_server 5000) (Some doc_api_and_client)
              (host 200 [100; 200]) (table_with_server 5000) (Some doc_api_and_client))
           eq_refl)))).
Defined.

(** ** More on the startup rate limiter *)

Lemma attempts_of_other_port port port' rd limits data b :
  port' <> port ->
  attempts_of port'
    (set_blocked_port b (set_rate_limits (Some (set port rd limits)) data))
  = match get port' limits with
    | Some rate_data => attempts rate_data
    | None => []
    end.
Proof.
  intros Hne. unfold attempts_of. cbn [rate_limits set_blocked_port set_rate_limits].
  rewrite get_set_other by exact Hne. reflexivity.
Qed.

(** X17.  A startup check on one port leaves the attempts recorded for
    every other port, the [processes] mapping, [primary_api] and the legacy
    fields as they were, and after the check every attempt on record for the
    checked port is younger than 5 minutes. *)
Theorem rate_limit_check_is_local_to_its_port now port data :
  let checked := update_and_check_rate_limit now port data in
  (forall port', port' <> port -> attempts_of port' checked = attempts_of port' data)
  /\ processes checked = processes data
  /\ primary_api checked = primary_api data
  /\ api_pid checked = api_pid data
  /\ clients checked = clients data
  /\ Forall (fun t => (now - 300 < t)%Q) (attempts_of port checked).
Proof.
  intros checked. subst checked. unfold update_and_check_rate_limit.
  set (limits := match rate_limits data with Some l => l | None => [] end).
  assert (Hlim : forall p, attempts_of p data
                           = match get p limits with
                             | Some rd => attempts rd
                             | None => []
                             end).
  { intros p. unfold attempts_of, limits. destruct (rate_limits data); reflexivity. }
  assert (Hyoung : forall l, Forall (fun t => (now - 300 < t)%Q)
                                    (filter (fun t => Qgtb t (now - 300)) l)).
  { intros l. apply Forall_forall. intros t Ht. apply filter_In in Ht.
    apply Qgtb_true, Ht. }
  assert (Hyoung' : forall l, Forall (fun t => (now - 300 < t)%Q)
                                     (filter (fun t => Qgtb t (now - 300)) l ++ [now])).
  { intros l. apply Forall_app. split; [apply Hyoung|].
    constructor; [lra|constructor]. }
  destruct (get port limits) as [rd|] eqn:G.
  - destruct (3 <=? _)%nat.
    + split; [|repeat split].
      * intros port' Hne. rewrite attempts_of_other_port by exact Hne.
        symmetry. apply Hlim.
      * rewrite attempts_of_set_limits. apply Hyoung.
    + split; [|repeat split].
      * intros port' Hne.
        cbn [set_rate_limits rate_limits set_blocked_port].
        rewrite (attempts_of_other_port port port' _ _ _ None Hne).
        rewrite get_set_other by exact Hne. symmetry. apply Hlim.
      * cbn [set_rate_limits rate_limits set_blocked_port].
        rewrite (attempts_of_set_limits port _ _ _ None). apply Hyoung'.
  - cbn [filter List.length Nat.leb].
    split; [|repeat split].
    + intros port' Hne.
      cbn [set_rate_limits rate_limits set_blocked_port].
      rewrite (attempts_of_other_port port port' _ _ _ None Hne).
      symmetry. apply Hlim.
    + cbn [set_rate_limits rate_limits set_blocked_port].
      rewrite (attempts_of_set_limits port _ _ _ None).
      constructor; [lra|constructor].
Qed.

Lemma rate_limits_migrate env data :
  rate_limits (migrate_legacy_structure env data) = rate_limits data.
Proof.
  unfold migrate_legacy_structure. destruct (fully_migrated data); reflexivity.
Qed.

(** X18.  No registry update other than the startup check changes the
    recorded startup attempts: migration, the API registration and
    unregistration updates, both pruning passes and the MCP registration and
    unregistration updates all write back the [rate_limits] they read. *)
Theorem registry_updates_keep_rate_limits env data :
  rate_limits (migrate_legacy_structure env data) = rate_limits data
  /\ (forall registered, register_api_pid env data = Return registered ->
                         rate_limits registered = rate_limits data)
  /\ rate_limits (unregister_api_pid env data) = rate_limits data
  /\ rate_limits (cleanup_stale_processes env data) = rate_limits data
  /\ rate_limits (clean_stale_pids env data) = rate_limits data
  /\ (forall self, rate_limits (add_client self env data) = rate_limits data)
  /\ (forall self, rate_limits (remove_client self env data) = rate_limits data).
Proof.
  pose proof (rate_limits_migrate env) as M.
  split; [apply M|]. split; [|split; [|split; [|split; [|split]]]].
  - intros registered. unfold register_api_pid.
    destruct (check_pid_conflict _ _ _); [discriminate|]. intros [= <-].
    cbn [rate_limits set_primary_api set_processes]. rewrite M.
    destruct (processes data); reflexivity.
  - unfold unregister_api_pid.
    destruct (get _ _) as [info|]; [destruct (has_type _ info);
      [destruct (opt_Z_eqb _ _)|]|];
      cbn [rate_limits set_primary_api set_processes]; apply M.
  - unfold cleanup_stale_processes.
    destruct (primary_api _) as [p|]; [destruct (truthy_int (Some p) && _)|];
      cbn [rate_limits set_primary_api set_processes]; apply M.
  - unfold clean_stale_pids.
    set (d1 := match api_pid (migrate_legacy_structure env data) with
               | Some p => _
               | None => _
               end).
    assert (H1 : rate_limits d1 = rate_limits data).
    { subst d1. destruct (api_pid _) as [p|]; [destruct (_ && _)|];
        cbn [rate_limits set_api_pid]; apply M. }
    destruct (processes d1); [destruct (HAS_PSUTIL env)|];
      cbn [rate_limits set_processes]; exact H1.
  - intros self. unfold add_client.
    destruct (check_pid_conflict _ _ _); cbn [rate_limits set_processes]; apply M.
  - intros self. unfold remove_client.
    destruct (get _ _) as [info|]; [destruct (opt_string_eqb _ _)|];
      cbn [rate_limits set_processes]; apply M.
Qed.

(** ** The lease store *)

Lemma upd_other (s : fs) p c q : q <> p -> upd s p c q = s q.
Proof.
  intros H. unfold upd. apply String.eqb_neq in H. rewrite H. reflexivity.
Qed.

Ltac own_file_ops :=
  repeat (apply Forall_cons;
          [first [ left; reflexivity
                 | right; left; eexists; reflexivity
                 | right; right; reflexivity ]|]);
  try apply Forall_nil.

Lemma run_ops_on_lock_file_only (p q : string) (ops : list fs_op) :
  q <> p ->
  Forall (fun op => op = OpenW p \/ (exists d, op = JsonDump p d) \/ op = Unlink p) ops ->
  forall s, run_ops s ops q = s q.
Proof.
  intros Hne H. induction H as [|op ops Hop _ IH]; intros s; [reflexivity|].
  unfold run_ops in *. cbn [fold_left]. rewrite IH.
  destruct Hop as [->|[[d ->]| ->]]; cbn [apply_op]; apply upd_other, Hne.
Qed.

(** X19.  A lease written by [lock_task] is what [get_locked_task] reads
    back: it carries the task, its id, the worktree path and branch given,
    this agent's id and the time of locking; the store reports itself locked
    and the age of the lease read at a later time is the time elapsed. *)
Theorem lease_round_trip self now task wt br s later :
  let s' := lock_task self now task wt br s in
  exists d,
    get_locked_task self s' = (Some d, s')
    /\ task_data d = Some task
    /\ task_id d = t_id task
    /\ agent_id d = Some (self_agent_id self)
    /\ worktree_path d = wt /\ branch_name d = br
    /\ locked_at d = now
    /\ is_locked self s' = true
    /\ fst (get_lock_age_seconds self later s') = Some (later - now)%Q.
Proof.
  intros s'.
  set (d := {| task_id := t_id task;
               task_title := or_empty (t_title task);
               agent_id := Some (self_agent_id self);
               locked_at := now;
               worktree_path := wt;
               branch_name := br;
               task_data := Some task;
               updated_at := None |}).
  exists d.
  assert (Hs : s' (lock_file self) = Holds d).
  { subst s'. unfold lock_task, lock_task_ops.
    cbn [run_ops fold_left apply_op]. apply upd_same. }
  assert (Hget : get_locked_task self s' = (Some d, s')).
  { apply get_locked_task_own; [exact Hs|reflexivity]. }
  split; [exact Hget|].
  repeat split.
  - unfold is_locked, exists_. rewrite Hs. reflexivity.
  - unfold get_lock_age_seconds. rewrite Hget. reflexivity.
Qed.

(** X20.  The lease store of an agent touches no path but its own lease
    file, and two agent ids never share a lease file: whatever one agent
    locks, annotates, reads or releases, the lease file of an agent with
    another id is what it was. *)
Theorem lease_stores_do_not_interfere self other :
  self_agent_id other <> self_agent_id self ->
  lock_file other <> lock_file self
  /\ forall s now task wt br path branch,
      lock_task self now task wt br s (lock_file other) = s (lock_file other)
      /\ update_lock self now path branch s (lock_file other) = s (lock_file other)
      /\ release_lock self s (lock_file other) = s (lock_file other)
      /\ snd (get_locked_task self s) (lock_file other) = s (lock_file other).
Proof.
  intros Hid.
  assert (Hne : lock_file other <> lock_file self).
  { unfold lock_file. intros H. apply Hid.
    apply string_append_cancel_l in H. apply string_append_cancel_r in H. exact H. }
  split; [exact Hne|].
  assert (Hrel : forall s, Forall (fun op => op = OpenW (lock_file self)
                                       \/ (exists d, op = JsonDump (lock_file self) d)
                                       \/ op = Unlink (lock_file self))
                                  (release_lock_ops self s)).
  { intros s. unfold release_lock_ops. destruct (exists_ self s); own_file_ops. }
  assert (Hget : forall s, Forall (fun op => op = OpenW (lock_file self)
                                       \/ (exists d, op = JsonDump (lock_file self) d)
                                       \/ op = Unlink (lock_file self))
                                  (snd (get_locked_task_ops self s))).
  { intros s. unfold get_locked_task_ops.
    destruct (s (lock_file self)) as [| | |d]; cbn [snd]; try apply Hrel; try apply Forall_nil.
    destruct (negb _); apply Forall_nil. }
  intros s now task wt br path branch. repeat split.
  - unfold lock_task. apply (run_ops_on_lock_file_only (lock_file self)); [exact Hne|].
    unfold lock_task_ops. own_file_ops.
  - unfold update_lock. apply (run_ops_on_lock_file_only (lock_file self)); [exact Hne|].
    unfold update_lock_ops. specialize (Hget s).
    destruct (get_locked_task_ops self s) as [[d|] ops]; cbn [snd] in Hget; [|exact Hget].
    apply Forall_app. split; [exact Hget|]. own_file_ops.
  - unfold release_lock. apply (run_ops_on_lock_file_only (lock_file self)); [exact Hne|apply Hrel].
  - unfold get_locked_task. specialize (Hget s).
    destruct (get_locked_task_ops self s) as [r ops]. cbn [snd] in *.
    apply (run_ops_on_lock_file_only (lock_file self)); [exact Hne|exact Hget].
Qed.

Lemma lease_stores_do_not_interfere_witness :
  release_lock agent_a1 fs_with_lease (lock_file {| self_agent_id := "b2" |})
  = fs_with_lease (lock_file {| self_agent_id := "b2" |}).
Proof.
  assert (H : self_agent_id {| self_agent_id := "b2" |} <> self_agent_id agent_a1)
    by discriminate.
  exact (proj1 (proj2 (proj2
           (proj2 (lease_stores_do_not_interfere agent_a1 {| self_agent_id := "b2" |} H)
                  fs_with_lease 0%Q (task_42 "created") None None "" "")))).
Defined.

(** X21.  Reading and annotating never create a lease and never take over
    another agent's: [get_locked_task] answers a lease only if the file
    holds one with this agent's id; it removes a file that does not parse
    and leaves a foreign lease in place.  [update_lock] rewrites the file
    only in the first case and otherwise leaves behind what
    [get_locked_task] left. *)
Theorem lease_is_read_and_annotated_only_by_its_owner self now path branch s :
  match s (lock_file self) with
  | Holds d =>
      if opt_string_eqb (agent_id d) (Some (self_agent_id self))
      then fst (get_locked_task self s) = Some d
           /\ snd (get_locked_task self s) (lock_file self) = Holds d
           /\ exists d', update_lock self now path branch s (lock_file self) = Holds d'
                         /\ agent_id d' = agent_id d /\ task_id d' = task_id d
                         /\ locked_at d' = locked_at d /\ updated_at d' = Some now
      else fst (get_locked_task self s) = None
           /\ snd (get_locked_task self s) (lock_file self) = Holds d
           /\ update_lock self now path branch s (lock_file self) = Holds d
  | _ =>
      fst (get_locked_task self s) = None
      /\ snd (get_locked_task self s) (lock_file self) = Absent
      /\ update_lock self now path branch s (lock_file self) = Absent
  end.
Proof.
  unfold get_locked_task, update_lock, update_lock_ops, get_locked_task_ops,
    release_lock_ops, exists_.
  destruct (s (lock_file self)) as [| | |d] eqn:E.
  - cbn [fst snd run_ops fold_left]. auto.
  - cbn [fst snd run_ops fold_left apply_op]. rewrite upd_same. auto.
  - cbn [fst snd run_ops fold_left apply_op]. rewrite upd_same. auto.
  - destruct (opt_string_eqb (agent_id d) (Some (self_agent_id self)));
      cbn [negb fst snd run_ops fold_left apply_op app].
    + split; [reflexivity|]. split; [exact E|].
      eexists. rewrite upd_same. repeat split.
    + auto.
Qed.

(** ** The runner *)

Lemma run_locked_task_releases self w task s :
  fst (run_locked_task self w task s) (lock_file (persistence self)) = Absent.
Proof.
  unfold run_locked_task.
  destruct (if opt_string_eqb (t_complexity task) (Some "major") then _ else _)
    as [[wp s1] log1].
  destruct (get_instructions_path w (role self)) as [ip|].
  - destruct (execute_task _ _ _ _) as [success msg]. cbn [fst].
    apply release_lock_absent.
  - cbn [fst]. apply release_lock_absent.
Qed.

(** X22.  However [_execute_task] returns (after the operator released the
    task, after a refused PM lock, without instructions, or after the
    subprocess ran, successfully or not), the agent's lease file is gone. *)
Theorem execute_task_always_ends_without_lease fuel : forall self w n task s s' log,
  _execute_task fuel self w n task s = Some (s', log) ->
  s' (lock_file (persistence self)) = Absent.
Proof.
  induction fuel as [|fuel IH]; intros self w n task s s' log H; [discriminate|].
  cbn [_execute_task] in H.
  assert (Hcont : forall l,
             (if client_lock_task w (t_id task)
              then let '(s0, log') := run_locked_task self w task s in
                   Some (s0, l ++ [PmLockTask (t_id task);
                                    UiSuccess "Task locked in PM system"] ++ log')
              else Some (release_lock (persistence self) s,
                         l ++ [PmLockTask (t_id task); UiError "Failed to lock task"]))
             = Some (s', log) ->
             s' (lock_file (persistence self)) = Absent).
  { intros l Hc. destruct (client_lock_task w (t_id task)).
    - pose proof (run_locked_task_releases self w task s) as R.
      destruct (run_locked_task self w task s) as [s0 log']. cbn [fst] in R.
      injection Hc as <- _. exact R.
    - injection Hc as <- _. apply release_lock_absent. }
  destruct (run_pre_task w n); [exact (Hcont _ H)|].
  destruct (prompt_operator w n).
  - destruct (_execute_task fuel self w (S n) task s) as [[s0 log0]|] eqn:E; [|discriminate].
    injection H as <- _. exact (IH _ _ _ _ _ _ _ E).
  - exact (Hcont _ H).
  - injection H as <- _. apply release_lock_absent.
Qed.

Lemma execute_task_always_ends_without_lease_witness :
  exists s' log,
    _execute_task 1 (runner_a1 "qa") (quiet_world "under_work" (Exited 0 "" "done"))
                  0 (task_42 "under_work") fs_with_lease = Some (s', log)
    /\ s' (lock_file (persistence (runner_a1 "qa"))) = Absent.
Proof.
  eexists. eexists. split; [reflexivity|].
  exact (execute_task_always_ends_without_lease 1 (runner_a1 "qa")
           (quiet_world "under_work" (Exited 0 "" "done")) 0 (task_42 "under_work")
           fs_with_lease _ _ eq_refl).
Defined.

(** X23.  The post-task hook runs, and a status is written to the PM
    service, only in executions in which the PM lock was granted and
    instructions for the role exist; a status update moreover only after the
    subprocess succeeded, and always with the completion status of the
    role. *)
Theorem subprocess_runs_only_after_pm_lock fuel : forall self w n task s s' log,
  _execute_task fuel self w n task s = Some (s', log) ->
  (forall ok, In (PostTaskHook (t_id task) ok) log ->
              client_lock_task w (t_id task) = true
              /\ get_instructions_path w (role self) <> None)
  /\ (forall st, In (PmUpdateStatus (t_id task) st) log ->
                 client_lock_task w (t_id task) = true
                 /\ st = _get_completion_status self
                 /\ In (PostTaskHook (t_id task) true) log).
Proof.
  assert (Hrun : forall self w task s,
             let log := snd (run_locked_task self w task s) in
             (forall ok, In (PostTaskHook (t_id task) ok) log ->
                         get_instructions_path w (role self) <> None)
             /\ (forall st, In (PmUpdateStatus (t_id task) st) log ->
                            st = _get_completion_status self
                            /\ In (PostTaskHook (t_id task) true) log)).
  { intros self w task s. unfold run_locked_task.
    destruct (if opt_string_eqb (t_complexity task) (Some "major") then _ else _)
      as [[wp s1] log1] eqn:Epre.
    assert (Hlog1 : forall e, In e log1 ->
                      e = UiSuccess "Worktree created"
                      \/ e = UiError "Failed to create worktree").
    { destruct (opt_string_eqb (t_complexity task) (Some "major")).
      - destruct (create_worktree w (t_id task)) as [[pa br]|];
          [destruct (update_lock_unencodable _ _) as [[u|u] s2]|];
          injection Epre as <- <- <-; intros e [<-|[]]; auto.
      - injection Epre as <- <- <-. intros e []. }
    destruct (get_instructions_path w (role self)) as [ip|].
    - destruct (execute_task _ _ _ _) as [success msg]. cbn [snd]. cbv zeta.
      split; [intros; discriminate|].
      intros st H.
      destruct success;
        destruct (opt_string_eqb (t_complexity task) (Some "major")
                  && negb (String.eqb wp cwd));
        rewrite !in_app_iff in H; simpl in H;
        repeat match goal with
               | H : _ \/ _ |- _ => destruct H as [H|H]
               | H : False |- _ => contradiction
               | H : In _ log1 |- _ => apply Hlog1 in H
               | H : (if ?b then _ else _) = _ |- _ => destruct b
               end;
        try discriminate;
        injection H as <-; (split; [reflexivity|]);
        rewrite !in_app_iff; simpl; tauto.
    - cbn [snd]. cbv zeta. split.
      + intros ok H. rewrite in_app_iff in H. simpl in H.
        destruct H as [H|[H|[]]]; [apply Hlog1 in H; destruct H|]; discriminate.
      + intros st H. rewrite in_app_iff in H. simpl in H.
        destruct H as [H|[H|[]]]; [apply Hlog1 in H; destruct H|]; discriminate. }
  induction fuel as [|fuel IH]; intros self w n task s s' log H; [discriminate|].
  cbn [_execute_task] in H.
  assert (Hcont : forall l,
             (forall e, In e l -> (exists x, e = UiError x) \/ (exists c, e = OperatorPrompt c)) ->
             (if client_lock_task w (t_id task)
              then let '(s0, log') := run_locked_task self w task s in
                   Some (s0, l ++ [PmLockTask (t_id task);
                                    UiSuccess "Task locked in PM system"] ++ log')
              else Some (release_lock (persistence self) s,
                         l ++ [PmLockTask (t_id task); UiError "Failed to lock task"]))
             = Some (s', log) ->
             (forall ok, In (PostTaskHook (t_id task) ok) log ->
                         client_lock_task w (t_id task) = true
                         /\ get_instructions_path w (role self) <> None)
             /\ (forall st, In (PmUpdateStatus (t_id task) st) log ->
                            client_lock_task w (t_id task) = true
                            /\ st = _get_completion_status self
                            /\ In (PostTaskHook (t_id task) true) log)).
  { intros l Hl Hc. destruct (client_lock_task w (t_id task)).
    - destruct (Hrun self w task s) as [R1 R2].
      destruct (run_locked_task self w task s) as [s0 log']. cbn [snd] in R1, R2.
      injection Hc as _ <-. split.
      + intros ok H0. split; [reflexivity|]. apply (R1 ok).
        rewrite in_app_iff in H0. simpl in H0.
        destruct H0 as [H0|[H0|[H0|H0]]]; try discriminate; [|exact H0].
        apply Hl in H0. destruct H0 as [[x H0]|[c H0]]; discriminate.
      + intros st H0. split; [reflexivity|].
        assert (Hin : In (PmUpdateStatus (t_id task) st) log').
        { rewrite in_app_iff in H0. simpl in H0.
          destruct H0 as [H0|[H0|[H0|H0]]]; try discriminate; [|exact H0].
          apply Hl in H0. destruct H0 as [[x H0]|[c H0]]; discriminate. }
        destruct (R2 st Hin) as [E1 E2]. split; [exact E1|].
        rewrite in_app_iff. right. simpl. auto.
    - injection Hc as _ <-. split.
      + intros ok H0. rewrite in_app_iff in H0. simpl in H0.
        destruct H0 as [H0|[H0|[H0|[]]]]; try discriminate.
        apply Hl in H0. destruct H0 as [[x H0]|[c H0]]; discriminate.
      + intros st H0. rewrite in_app_iff in H0. simpl in H0.
        destruct H0 as [H0|[H0|[H0|[]]]]; try discriminate.
        apply Hl in H0. destruct H0 as [[x H0]|[c H0]]; discriminate. }
  assert (Hgate : forall c e,
             In e [UiError "Pre-task hook failed"; OperatorPrompt c] ->
             (exists x, e = UiError x) \/ (exists c', e = OperatorPrompt c')).
  { intros c e [<-|[<-|[]]]; eauto. }
  destruct (run_pre_task w n).
  { apply (Hcont []); [intros e []|exact H]. }
  destruct (prompt_operator w n) eqn:Ec.
  - destruct (_execute_task fuel self w (S n) task s) as [[s0 log0]|] eqn:E; [|discriminate].
    injection H as _ <-. destruct (IH _ _ _ _ _ _ _ E) as [I1 I2]. split.
    + intros ok H0. apply (I1 ok). simpl in H0.
      destruct H0 as [H0|[H0|H0]]; try discriminate. exact H0.
    + intros st H0.
      assert (Hin : In (PmUpdateStatus (t_id task) st) log0).
      { simpl in H0. destruct H0 as [H0|[H0|H0]]; try discriminate. exact H0. }
      destruct (I2 st Hin) as (E1 & E2 & E3). repeat split; try assumption.
      simpl. auto.
  - apply (Hcont [UiError "Pre-task hook failed"; OperatorPrompt SkipChecks]);
      [apply Hgate|exact H].
  - injection H as _ <-. split.
    + intros ok [H0|[H0|[]]]; discriminate.
    + intros st [H0|[H0|[]]]; discriminate.
Qed.

Lemma subprocess_runs_only_after_pm_lock_witness :
  client_lock_task (quiet_world "under_work" (Exited 0 "" "done")) 42 = true
  /\ "dev_done" = _get_completion_status (runner_a1 "backend_dev").
Proof.
  destruct (_execute_task 1 (runner_a1 "backend_dev")
              (quiet_world "under_work" (Exited 0 "" "done"))
              0 (task_42 "under_work") fs_with_lease) as [[s' log]|] eqn:E;
    [|discriminate E].
  destruct (proj2 (subprocess_runs_only_after_pm_lock 1 (runner_a1 "backend_dev")
                     (quiet_world "under_work" (Exited 0 "" "done"))
                     0 (task_42 "under_work") fs_with_lease s' log E)
                  "dev_done") as (H1 & H2 & _).
  - injection E as _ <-. simpl. auto.
  - split; assumption.
Defined.

(** X24.  [_execute_task] returns as soon as the retries stop: if the
    pre-task hook fails and the operator answers "Retry checks" in the first
    [k] rounds, and in the next round the hook passes or the operator gives
    another answer, then [k + 1] nested calls suffice, and allowing more
    changes nothing in the result. *)
Theorem execute_task_returns_when_retries_stop self w task s : forall k n,
  (forall i, (i < k)%nat ->
             run_pre_task w (n + i)%nat = false
             /\ prompt_operator w (n + i)%nat = RetryChecks) ->
  run_pre_task w (n + k)%nat = true \/ prompt_operator w (n + k)%nat <> RetryChecks ->
  exists r,
    _execute_task (S k) self w n task s = Some r
    /\ forall extra, _execute_task (S k + extra) self w n task s = Some r.
Proof.
  induction k as [|k IH]; intros n Hretry Hstop.
  - rewrite Nat.add_0_r in Hstop.
    assert (Hfuel : forall a, _execute_task (S a) self w n task s
                              = _execute_task 1 self w n task s).
    { intros a. cbn [_execute_task].
      destruct (run_pre_task w n); [reflexivity|].
      destruct (prompt_operator w n); try reflexivity.
      destruct Hstop as [Hs|Hs]; [discriminate|contradiction]. }
    assert (Hsome : exists r, _execute_task 1 self w n task s = Some r).
    { cbn [_execute_task].
      assert (Hc : forall l, exists r,
                 (if client_lock_task w (t_id task)
                  then let '(s0, log') := run_locked_task self w task s in
                       Some (s0, l ++ [PmLockTask (t_id task);
                                        UiSuccess "Task locked in PM system"] ++ log')
                  else Some (release_lock (persistence self) s,
                             l ++ [PmLockTask (t_id task); UiError "Failed to lock task"]))
                 = Some r).
      { intros l. destruct (client_lock_task w (t_id task)); [|eauto].
        destruct (run_locked_task self w task s). eauto. }
      destruct (run_pre_task w n); [apply Hc|].
      destruct (prompt_operator w n); [|apply Hc|eauto].
      destruct Hstop as [Hs|Hs]; [discriminate|contradiction]. }
    destruct Hsome as [r Hr]. exists r. split; [exact Hr|].
    intros extra. cbn [Nat.add]. rewrite Hfuel. exact Hr.
  - destruct (Hretry 0%nat ltac:(lia)) as [Hpre Hop]. rewrite Nat.add_0_r in Hpre, Hop.
    destruct (IH (S n)) as (r & Hr & Hmore).
    + intros i Hi. replace (S n + i)%nat with (n + S i)%nat by lia.
      apply Hretry. lia.
    + replace (S n + k)%nat with (n + S k)%nat by lia. exact Hstop.
    + destruct r as [s' log'].
      exists (s', [UiError "Pre-task hook failed"; OperatorPrompt RetryChecks] ++ log').
      split.
      * cbn [_execute_task]. rewrite Hpre, Hop.
        cbn [_execute_task] in Hr. rewrite Hr. reflexivity.
      * intros extra. cbn [Nat.add _execute_task]. rewrite Hpre, Hop.
        specialize (Hmore extra). cbn [Nat.add _execute_task] in Hmore.
        rewrite Hmore. reflexivity.
Qed.

Lemma execute_task_returns_when_retries_stop_witness :
  exists r,
    _execute_task 3 (runner_a1 "qa") (retrying_world (Exited 0 "" "done"))
                  0 (task_42 "under_work") fs_with_lease = Some r
    /\ _execute_task 5 (runner_a1 "qa") (retrying_world (Exited 0 "" "done"))
                     0 (task_42 "under_work") fs_with_lease = Some r
    /\ _execute_task 2 (runner_a1 "qa") (retrying_world (Exited 0 "" "done"))
                     0 (task_42 "under_work") fs_with_lease = None.
Proof.
  destruct (execute_task_returns_when_retries_stop (runner_a1 "qa")
              (retrying_world (Exited 0 "" "done")) (task_42 "under_work")
              fs_with_lease 2 0) as (r & Hr & Hmore).
  - intros i Hi. destruct i as [|[|i]]; [split; reflexivity|split; reflexivity|lia].
  - left. reflexivity.
  - exists r. split; [exact Hr|]. split; [exact (Hmore 2%nat)|reflexivity].
Defined.

(** X25.  A lease survives a crash and nothing else does: when a turn of the
    main loop finds no lease and polls a task, it leases that task before
    executing it, and a runner restarted on that file system (whatever the
    world then answers) asks the PM service for exactly that task and
    resumes what the service returns unless it is completed or cancelled.
    After [_cleanup] a restarted runner finds nothing to recover and asks
    nothing. *)
Theorem leased_task_is_recovered_after_restart self w s task :
  s (lock_file (persistence self)) = Absent ->
  client_get_next_task w = Some task ->
  let leased := snd (fst (session_plan self w s)) in
  fst (fst (session_plan self w s)) = Fresh task
  /\ (forall w' current_task,
        client_get_task w' (t_id task) = Some current_task ->
        String.eqb (t_status current_task) "completed"
        || String.eqb (t_status current_task) "cancelled" = false ->
        _recover_locked_task self w' leased
        = (Some current_task, leased, [PmGetTask (t_id task)]))
  /\ (forall w', _recover_locked_task self w' (_cleanup self leased)
                 = (None, _cleanup self leased, [])).
Proof.
  intros Habs Hnext leased. subst leased.
  assert (Hrec : _recover_locked_task self w s = (None, s, [])).
  { unfold _recover_locked_task, get_locked_task, get_locked_task_ops.
    rewrite Habs. reflexivity. }
  unfold session_plan. rewrite Hrec, Hnext. cbn [fst snd].
  split; [reflexivity|].
  destruct (lease_round_trip (persistence self) (clock w) task None None s 0%Q)
    as (d & Hget & Htask & _).
  split.
  - intros w' cur Hcur Hst. unfold _recover_locked_task.
    rewrite Hget, Htask, Hcur, Hst. reflexivity.
  - intros w'. unfold _recover_locked_task, get_locked_task, get_locked_task_ops.
    assert (Hcl : _cleanup self (lock_task (persistence self) (clock w) task None None s)
                    (lock_file (persistence self)) = Absent).
    { unfold _cleanup. destruct (is_locked _ _) eqn:L; [apply release_lock_absent|].
      unfold is_locked, exists_ in L.
      destruct (lock_task _ _ _ _ _ _ _); try discriminate. reflexivity. }
    rewrite Hcl. reflexivity.
Qed.

Lemma leased_task_is_recovered_after_restart_witness :
  fst (fst (session_plan (runner_a1 "qa") polling_world no_files))
  = Fresh (task_42 "created").
Proof.
  apply (leased_task_is_recovered_after_restart (runner_a1 "qa") polling_world
           no_files (task_42 "created") eq_refl eq_refl).
Defined.

(** ** Connecting to the API or starting it *)

Lemma attempts_of_rate_limits port d d' :
  rate_limits d = rate_limits d' -> attempts_of port d = attempts_of port d'.
Proof. unfold attempts_of. intros ->. reflexivity. Qed.

Lemma register_keeps_attempts self env f port :
  file_attempts port (snd (_register_mcp_client self env f)) = file_attempts port f.
Proof.
  unfold _register_mcp_client, atomic_json_update. cbn [snd file_attempts].
  rewrite (attempts_of_rate_limits port _ (_read_json_safe f clients_default)).
  - destruct f; reflexivity.
  - apply (registry_updates_keep_rate_limits env).
Qed.

Lemma clean_keeps_attempts env f port :
  file_attempts port
    (match f with
     | Some _ => snd (atomic_json_update f (fun d => Return (clean_stale_pids env d))
                                         empty_doc)
     | None => f
     end)
  = file_attempts port f.
Proof.
  destruct f as [d|]; [|reflexivity].
  unfold atomic_json_update. cbn [snd file_attempts _read_json_safe].
  apply attempts_of_rate_limits, (registry_updates_keep_rate_limits env).
Qed.

(** X26.  The start attempt is reached only if the first health probe
    failed, autostart is not disabled, the startup rate-limit check at that
    moment was passed, and either the registry told this client to start the
    API or ten further probes failed; and the call claims ownership of the
    API ([_we_started_api]) only when its own start attempt succeeded. *)
Theorem api_is_started_only_behind_every_gate
        self env health find_pid NO_AUTOSTART now port start f :
  let r := ensure_api_available self env health find_pid NO_AUTOSTART now port start f in
  (spawn_attempted r = true ->
   health 0%nat = false
   /\ truthy_string NO_AUTOSTART = false
   /\ (3 <=? List.length (recent now (file_attempts port f)))%nat = false
   /\ In now (file_attempts port (file_after r))
   /\ (fst (_register_mcp_client self env
              match f with
              | Some _ => snd (atomic_json_update f
                                 (fun d => Return (clean_stale_pids env d)) empty_doc)
              | None => f
              end) = true
       \/ wait_for_peer health 1 10 = false))
  /\ (_we_started_api self = false ->
      _we_started_api (server_after r) = true ->
      spawn_attempted r = true /\ available r = true
      /\ exists pid_info, start = Started pid_info).
Proof.
  intros r. subst r. unfold ensure_api_available.
  set (f1 := match f with
             | Some _ => snd (atomic_json_update f (fun d => Return (clean_stale_pids env d))
                                                 empty_doc)
             | None => f
             end).
  assert (Hatt : file_attempts port (snd (_register_mcp_client self env f1))
                 = file_attempts port f).
  { rewrite register_keeps_attempts. apply clean_keeps_attempts. }
  destruct (_register_mcp_client self env f1) as [should f2]. cbn [fst snd] in *.
  destruct (health 0%nat).
  { cbn. split; [discriminate|]. intros H1 H2. discriminate. }
  destruct (negb should && wait_for_peer health 1 10) eqn:W.
  { cbn. split; [discriminate|]. intros H1 H2. discriminate. }
  assert (Hwhy : should = true \/ wait_for_peer health 1 10 = false).
  { destruct should; [left; reflexivity|right; exact W]. }
  destruct (truthy_string NO_AUTOSTART).
  { cbn. split; [discriminate|]. intros H1 H2. congruence. }
  destruct (check_startup_spec now port f2) as [Hok Hst]. cbv zeta in Hok, Hst.
  rewrite Hatt in Hok, Hst.
  destruct (_check_startup_rate_limit now port f2) as [allowed f3].
  cbn [fst snd] in Hok, Hst.
  destruct (3 <=? List.length (recent now (file_attempts port f)))%nat;
    cbn [negb] in Hok; subst allowed; cbn [negb].
  { cbn. split; [discriminate|]. intros H1 H2. congruence. }
  assert (Hin : In now (file_attempts port f3)).
  { rewrite Hst. apply in_or_app. right. simpl. auto. }
  destruct start as [|pid_info]; cbn.
  - split.
    + intros _. repeat split; assumption.
    + intros H1 H2. congruence.
  - split.
    + intros _. repeat split; assumption.
    + intros _ _. repeat split. eauto.
Qed.

Lemma api_is_started_only_behind_every_gate_witness :
  health_never 0%nat = false
  /\ In 1000%Q
        (file_attempts 6969
           (file_after (ensure_api_available (mcp_server "mcp_200_1" false)
                          (host 200 [200]) health_never None None 1000 6969
                          (Started (Some (100, 999%Q))) None))).
Proof.
  destruct (proj1 (api_is_started_only_behind_every_gate
                     (mcp_server "mcp_200_1" false) (host 200 [200]) health_never
                     None None 1000 6969 (Started (Some (100, 999%Q))) None)
                  eq_refl) as (H1 & _ & _ & H2 & _).
  split; assumption.
Defined.

(** X27.  Connection first: a client whose first health probe is answered
    is told the API is available without any start attempt, does not count
    itself as the one who started the API, and uses up no startup attempt of
    any port; the same holds for a client that found the API while waiting
    for a peer.  With autostart disabled there is never a start attempt and
    none is recorded, and the call fails when no probe is answered. *)
Theorem connecting_uses_no_startup_attempt
        self env health find_pid NO_AUTOSTART now port start f :
  let r := ensure_api_available self env health find_pid NO_AUTOSTART now port start f in
  (health 0%nat = true ->
   available r = true /\ spawn_attempted r = false
   /\ _we_started_api (server_after r) = false
   /\ forall p, file_attempts p (file_after r) = file_attempts p f)
  /\ (available r = true -> spawn_attempted r = false ->
      _we_started_api (server_after r) = false
      /\ forall p, file_attempts p (file_after r) = file_attempts p f)
  /\ (truthy_string NO_AUTOSTART = true ->
      spawn_attempted r = false
      /\ (forall p, file_attempts p (file_after r) = file_attempts p f)
      /\ (health 0%nat = false -> wait_for_peer health 1 10 = false ->
          available r = false)).
Proof.
  intros r. subst r. unfold ensure_api_available.
  set (f1 := match f with
             | Some _ => snd (atomic_json_update f (fun d => Return (clean_stale_pids env d))
                                                 empty_doc)
             | None => f
             end).
  assert (Hatt : forall p, file_attempts p (snd (_register_mcp_client self env f1))
                           = file_attempts p f).
  { intros p. rewrite register_keeps_attempts. apply clean_keeps_attempts. }
  destruct (_register_mcp_client self env f1) as [should f2]. cbn [snd] in Hatt.
  destruct (health 0%nat).
  { cbn. split; [|split]; intros; repeat split; intros; auto; congruence. }
  destruct (negb should && wait_for_peer health 1 10) eqn:W.
  { cbn [available spawn_attempted server_after file_after _we_started_api note_api].
    split; [|split]; intros; repeat split; intros; auto; try congruence.
    match goal with
    | Hw : wait_for_peer _ _ _ = false |- _ =>
        rewrite Hw, andb_false_r in W; discriminate W
    end. }
  destruct (truthy_string NO_AUTOSTART).
  { cbn. split; [|split]; intros; repeat split; intros; auto; congruence. }
  destruct (_check_startup_rate_limit now port f2) as [allowed f3].
  destruct allowed; cbn [negb].
  - destruct start; cbn; (split; [|split]); intros; congruence.
  - cbn. split; [|split]; intros; congruence.
Qed.

Lemma connecting_uses_no_startup_attempt_witness :
  available (ensure_api_available (mcp_server "mcp_200_1" false) (host 200 [100; 200])
               (fun _ => true) (Some (100, 999%Q)) None 1000 6969 StartFailed
               (Some doc_api_and_client)) = true
  /\ spawn_attempted (ensure_api_available (mcp_server "mcp_200_1" false)
                        (host 200 [100; 200]) (fun _ => true) (Some (100, 999%Q)) None
                        1000 6969 StartFailed (Some doc_api_and_client)) = false.
Proof.
  destruct (proj1 (connecting_uses_no_startup_attempt
                     (mcp_server "mcp_200_1" false) (host 200 [100; 200])
                     (fun _ => true) (Some (100, 999%Q)) None 1000 6969 StartFailed
                     (Some doc_api_and_client)) eq_refl) as (H1 & H2 & _).
  split; assumption.
Defined.

(** ** The launch command *)

(** X28.  An override in [HEADLESS_PM_COMMAND] is returned as it is, without
    being tested.  Without an override every answer passes [_test_command],
    and in an MCP-spawned process every answer starts the API alone (it runs
    [src.main], [src.main:app] or [api-only]): the supervisor never
    relaunches [headless-pm] from there, and it finds no command only if
    every API-only candidate fails the test. *)
Theorem launch_command_is_api_only_in_mcp_context
        current_python service_port project_found venv_commands test :
  (forall cmd mcp_context,
      _find_headless_pm_command (Some cmd) mcp_context current_python service_port
                                project_found venv_commands test = Some cmd)
  /\ (forall mcp_context cmd,
        _find_headless_pm_command None mcp_context current_python service_port
                                  project_found venv_commands test = Some cmd ->
        test cmd = true)
  /\ (forall cmd,
        _find_headless_pm_command None true current_python service_port
                                  project_found venv_commands test = Some cmd ->
        starts_api_only cmd = true
        /\ cmd <> ["headless-pm"] /\ cmd <> ["headless-pm-mcp"]
        /\ cmd <> ["uv"; "run"; "headless-pm"] /\ cmd <> ["uv"; "run"; "start"])
  /\ (_find_headless_pm_command None true current_python service_port
                                project_found venv_commands test = None ->
      forall cmd, In cmd (api_only_commands current_python service_port) ->
                  test cmd = false).
Proof.
  split; [reflexivity|]. split; [|split].
  - intros mcp cmd H. unfold _find_headless_pm_command in H.
    apply find_some in H. apply H.
  - intros cmd H. unfold _find_headless_pm_command in H.
    apply find_some in H. destruct H as [Hin _].
    assert (Hapi : starts_api_only cmd = true).
    { apply in_app_or in Hin. destruct Hin as [Hin|Hin].
      - unfold api_only_commands in Hin. simpl in Hin.
        destruct Hin as [<-|[<-|[<-|[<-|[<-|[]]]]]]; unfold starts_api_only; simpl;
          rewrite ?orb_true_r; reflexivity.
      - destruct project_found; [|destruct Hin].
        unfold project_commands in Hin. simpl in Hin.
        destruct Hin as [<-|[<-|[<-|[<-|[]]]]]; unfold starts_api_only; simpl;
          rewrite ?orb_true_r; reflexivity. }
    split; [exact Hapi|].
    repeat split; intros ->; discriminate Hapi.
  - intros H cmd Hin. unfold _find_headless_pm_command in H.
    apply (find_none _ _ H). apply in_or_app. left. exact Hin.
Qed.

Lemma launch_command_is_api_only_in_mcp_context_witness :
  starts_api_only ["python3"; "-m"; "src.main"] = true.
Proof.
  apply (proj1 (proj2 (proj2 (launch_command_is_api_only_in_mcp_context
                         "/usr/bin/python3.12" "6969" false []
                         (fun cmd => match cmd with
                                     | "python3"%string :: _ => true
                                     | _ => false
                                     end))))
               ["python3"; "-m"; "src.main"]).
  reflexivity.
Defined.
